(** * Event capture layer of the eBPF ransomware detector

    A shallow embedding of [src/monitor_ebpf.c]: the three tracepoint
    handlers [sys_enter_openat], [sys_enter_write] and [sys_enter_unlinkat],
    the record [struct data_t] they fill on their stack, and the perf output
    channel [events] they submit it to.

    The stack record is modelled as the C program sees it, a block of
    [sizeof (struct data_t)] bytes in which every member lives at the offset
    the C layout rules give it.  Assignments to members are byte stores,
    and what the consumer decodes are byte loads.  The kernel helpers the
    handlers call are not part of the repository; they are modelled after
    their documented contract (bpf-helpers(7) and the kernel sources). *)

From Stdlib Require Import ZArith List Lia Bool.
From Stdlib Require Import Strings.Byte.
Import ListNotations.

(* ================================================================= *)
(** ** Bytes and machine integers *)

(** The low eight bits of an integer, as a byte. *)
Definition byte_of_Z (z : Z) : byte :=
  match Byte.of_N (Z.to_N (z mod 256)) with
  | Some b => b
  | None => x00
  end.

Definition Z_of_byte (b : byte) : Z := Z.of_N (Byte.to_N b).

(** Byte order of the host the program is loaded on. *)
Inductive byte_order : Set := LittleEndian | BigEndian.

(** The [n] low bytes of [z], least significant first.  Negative numbers
    come out in two's complement, as [Z.modulo] and [Z.div] round down. *)
Fixpoint bytes_le (n : nat) (z : Z) : list byte :=
  match n with
  | O => []
  | S n' => byte_of_Z z :: bytes_le n' (z / 256)
  end.

Fixpoint Z_le (bs : list byte) : Z :=
  match bs with
  | [] => 0%Z
  | b :: bs' => (Z_of_byte b + 256 * Z_le bs')%Z
  end.

Definition int_bytes (o : byte_order) (n : nat) (z : Z) : list byte :=
  match o with
  | LittleEndian => bytes_le n z
  | BigEndian => rev (bytes_le n z)
  end.

Definition bytes_int (o : byte_order) (bs : list byte) : Z :=
  match o with
  | LittleEndian => Z_le bs
  | BigEndian => Z_le (rev bs)
  end.

(** Reading an unsigned [w]-bit pattern as a signed integer. *)
Definition signed (w : Z) (z : Z) : Z :=
  if (z <? 2 ^ (w - 1))%Z then z else (z - 2 ^ w)%Z.

(** The bytes of a C string held in a buffer: everything before the first
    NUL (or the whole buffer when it holds none). *)
Fixpoint c_string (bs : list byte) : list byte :=
  match bs with
  | [] => []
  | b :: bs' => if Byte.eqb b x00 then [] else b :: c_string bs'
  end.

(* ================================================================= *)
(** ** Byte buffers *)

Definition load (off n : nat) (buf : list byte) : list byte :=
  firstn n (skipn off buf).

(** [store off bs buf] overwrites [length bs] bytes of [buf] from offset
    [off] on.  All stores of the program are in bounds. *)
Definition store (off : nat) (bs buf : list byte) : list byte :=
  firstn off buf ++ bs ++ skipn (off + length bs) buf.

Definition memset (off : nat) (c : byte) (n : nat) (buf : list byte) : list byte :=
  store off (repeat c n) buf.

(* ================================================================= *)
(** ** [struct data_t] and its layout *)

(** Modelled from the spec: [TASK_COMM_LEN] comes from [<linux/sched.h>],
    which is not part of the repository; the data model gives the [comm]
    member 16 bytes, terminator included. *)
Definition TASK_COMM_LEN : nat := 16.

Inductive ctype : Set :=
| U32
| Int
| U64
| CharArray (n : nat).

Definition sizeof (t : ctype) : nat :=
  match t with
  | U32 => 4
  | Int => 4
  | U64 => 8
  | CharArray n => n
  end.

Definition alignof (t : ctype) : nat :=
  match t with
  | U32 => 4
  | Int => 4
  | U64 => 8
  | CharArray _ => 1
  end.

Inductive member : Set :=
| m_pid
| m_comm
| m_filename
| m_syscall
| m_fd
| m_count.

Definition member_eqb (a b : member) : bool :=
  match a, b with
  | m_pid, m_pid | m_comm, m_comm | m_filename, m_filename
  | m_syscall, m_syscall | m_fd, m_fd | m_count, m_count => true
  | _, _ => false
  end.

(** The members of [struct data_t], in declaration order. *)
Definition data_t : list (member * ctype) :=
  [ (m_pid, U32);
    (m_comm, CharArray TASK_COMM_LEN);
    (m_filename, CharArray 256);
    (m_syscall, Int);
    (m_fd, Int);
    (m_count, U64) ].

(** C struct layout: each member goes to the next offset that is a multiple
    of its alignment; the struct is padded to a multiple of the largest
    member alignment. *)
Definition align_up (off a : nat) : nat := ((off + a - 1) / a) * a.

Fixpoint layout (off : nat) (ms : list (member * ctype)) : list (member * nat) :=
  match ms with
  | [] => []
  | (m, t) :: ms' =>
      let o := align_up off (alignof t) in
      (m, o) :: layout (o + sizeof t) ms'
  end.

Fixpoint layout_end (off : nat) (ms : list (member * ctype)) : nat :=
  match ms with
  | [] => off
  | (_, t) :: ms' => layout_end (align_up off (alignof t) + sizeof t) ms'
  end.

Definition struct_align (ms : list (member * ctype)) : nat :=
  fold_right (fun mt a => Nat.max (alignof (snd mt)) a) 1 ms.

Definition struct_sizeof (ms : list (member * ctype)) : nat :=
  align_up (layout_end 0 ms) (struct_align ms).

Fixpoint lookup_member {A : Type} (m : member) (l : list (member * A)) : option A :=
  match l with
  | [] => None
  | (m', a) :: l' => if member_eqb m m' then Some a else lookup_member m l'
  end.

Definition offsetof (m : member) : nat :=
  match lookup_member m (layout 0 data_t) with
  | Some o => o
  | None => 0
  end.

Definition off_pid : nat := Eval cbv in offsetof m_pid.
Definition off_comm : nat := Eval cbv in offsetof m_comm.
Definition off_filename : nat := Eval cbv in offsetof m_filename.
Definition off_syscall : nat := Eval cbv in offsetof m_syscall.
Definition off_fd : nat := Eval cbv in offsetof m_fd.
Definition off_count : nat := Eval cbv in offsetof m_count.

(** [sizeof (struct data_t)], [sizeof (data.comm)], [sizeof (data.filename)]. *)
Definition sizeof_data_t : nat := Eval cbv in struct_sizeof data_t.
Definition sizeof_comm : nat := Eval cbv in TASK_COMM_LEN.
Definition sizeof_filename : nat := 256.

(** Member assignments, with C's conversion to the member's type: only the
    low bytes of the value are kept. *)
Definition store_u32 (o : byte_order) (off : nat) (v : Z) (buf : list byte) :=
  store off (int_bytes o 4 v) buf.
Definition store_int (o : byte_order) (off : nat) (v : Z) (buf : list byte) :=
  store off (int_bytes o 4 v) buf.
Definition store_u64 (o : byte_order) (off : nat) (v : Z) (buf : list byte) :=
  store off (int_bytes o 8 v) buf.

(** What a consumer decodes from a record of the channel. *)
Definition data_pid (o : byte_order) (rec : list byte) : Z :=
  bytes_int o (load off_pid 4 rec).
Definition data_comm (rec : list byte) : list byte :=
  load off_comm sizeof_comm rec.
Definition data_filename (rec : list byte) : list byte :=
  load off_filename sizeof_filename rec.
Definition data_syscall (o : byte_order) (rec : list byte) : Z :=
  signed 32 (bytes_int o (load off_syscall 4 rec)).
Definition data_fd (o : byte_order) (rec : list byte) : Z :=
  signed 32 (bytes_int o (load off_fd 4 rec)).
Definition data_count (o : byte_order) (rec : list byte) : Z :=
  bytes_int o (load off_count 8 rec).

(** The path a consumer reads out of the [filename] member. *)
Definition data_path (rec : list byte) : list byte :=
  c_string (data_filename rec).

(* ================================================================= *)
(** ** The kernel as the handlers see it *)

(** The calling task: [task->tgid], [task->pid] and the [task->comm] array. *)
Record task_struct : Type := {
  task_tgid : Z;
  task_pid : Z;
  task_comm : list byte
}.

(** The ring of the current CPU behind [BPF_PERF_OUTPUT(events)]: the
    records waiting for the reader, how many fit, how many were dropped. *)
Record perf_buffer : Type := {
  ring : list (list byte);
  capacity : nat;
  lost : nat
}.

(** [user_mem] is the address space of the calling process ([None] where
    nothing readable is mapped); [kstack] is whatever earlier kernel code
    left in the stack slot the handler's [data] is placed in. *)
Record kernel : Type := {
  current : task_struct;
  user_mem : Z -> option byte;
  kstack : nat -> byte;
  events : perf_buffer;
  host_order : byte_order
}.

Definition set_events (k : kernel) (ev : perf_buffer) : kernel :=
  {| current := current k;
     user_mem := user_mem k;
     kstack := kstack k;
     events := ev;
     host_order := host_order k |}.

(** The bytes of a stack variable of [n] bytes before it is initialised. *)
Definition uninit (k : kernel) (n : nat) : list byte :=
  map (kstack k) (seq 0 n).

Definition EFAULT : Z := 14%Z.
Definition ENOSPC : Z := 28%Z.

(** [bpf_get_current_pid_tgid]: [(u64) task->tgid << 32 | task->pid]. *)
Definition bpf_get_current_pid_tgid (k : kernel) : Z :=
  (Z.lor (Z.shiftl (task_tgid (current k)) 32) (task_pid (current k))
   mod 2 ^ 64)%Z.

(** [strscpy_pad (dst, src, size)]: at most [size - 1] bytes of the C
    string in [src], the rest of the [size] bytes filled with NUL. *)
Definition strscpy_pad (src : list byte) (size : nat) : list byte :=
  let s := firstn (size - 1) (c_string src) in
  s ++ repeat x00 (size - length s).

(** [bpf_get_current_comm (buf, size)]: [strscpy_pad (buf, task->comm, size)],
    result 0. *)
Definition bpf_get_current_comm (k : kernel) (dst size : nat)
    (buf : list byte) : list byte * Z :=
  (store dst (strscpy_pad (task_comm (current k)) size) buf, 0%Z).

(** [strncpy_from_user]: the bytes copied from user address [src], one at a
    time, up to and including the first NUL, and at most [count] of them;
    [None] when a byte it needs is not readable. *)
Fixpoint strncpy_from_user (mem : Z -> option byte) (src : Z) (count : nat)
    : option (list byte) :=
  match count with
  | O => Some []
  | S n =>
      match mem src with
      | None => None
      | Some c =>
          if Byte.eqb c x00 then Some [c]
          else option_map (cons c) (strncpy_from_user mem (src + 1)%Z n)
      end
  end.

(** The bytes [bpf_probe_read_user_str (dst, size, unsafe_ptr)] leaves in
    [dst]: none when [size] is 0; on a fault all [size] bytes are cleared;
    a string that fills the buffer has its last byte replaced by NUL; a
    shorter one is copied with its NUL and nothing is written behind it. *)
Definition probe_read_bytes (mem : Z -> option byte) (size : nat)
    (unsafe_ptr : Z) : list byte :=
  match size with
  | O => []
  | S _ =>
      match strncpy_from_user mem unsafe_ptr size with
      | None => repeat x00 size
      | Some bs =>
          if (length bs <? size)%nat then bs
          else firstn (size - 1) bs ++ [x00]
      end
  end.

(** [bpf_probe_read_user_str]: the length of the string stored, NUL
    included, or [-EFAULT]. *)
Definition bpf_probe_read_user_str (k : kernel) (dst size : nat)
    (unsafe_ptr : Z) (buf : list byte) : list byte * Z :=
  (store dst (probe_read_bytes (user_mem k) size unsafe_ptr) buf,
   match strncpy_from_user (user_mem k) unsafe_ptr size with
   | None => (- EFAULT)%Z
   | Some bs => Z.of_nat (length bs)
   end).

(** [events.perf_submit (ctx, data, size)]: the [size] bytes at [data] are
    copied into the ring when there is room (result 0); when there is none
    the record is dropped and counted as lost (result [-ENOSPC]). *)
Definition perf_submit (ev : perf_buffer) (data : list byte) (size : nat)
    : perf_buffer * Z :=
  if (length (ring ev) <? capacity ev)%nat
  then ({| ring := ring ev ++ [firstn size data];
           capacity := capacity ev;
           lost := lost ev |}, 0%Z)
  else ({| ring := ring ev;
           capacity := capacity ev;
           lost := S (lost ev) |}, (- ENOSPC)%Z).

(* ================================================================= *)
(** ** The tracepoint handlers *)

(** The [args] of the three tracepoints, as the kernel's tracepoint formats
    declare them (the declarations are generated from the running kernel
    and are not in the repository).  Pointers are user addresses. *)
Record openat_args : Type := {
  openat_dfd : Z;
  openat_filename : Z;
  openat_flags : Z;
  openat_mode : Z
}.

Record write_args : Type := {
  write_fd : Z;
  write_buf : Z;
  write_count : Z
}.

Record unlinkat_args : Type := {
  unlinkat_dfd : Z;
  unlinkat_pathname : Z;
  unlinkat_flag : Z
}.

(** [struct data_t data = {};] the whole stack slot is cleared. *)
Definition data_init (k : kernel) : list byte :=
  memset 0 x00 sizeof_data_t (uninit k sizeof_data_t).

(** The contents of [data] when [sys_enter_openat] reaches [perf_submit]. *)
Definition sys_enter_openat_data (k : kernel) (args : openat_args) : list byte :=
  let o := host_order k in
  let data := data_init k in
  let data := store_int o off_syscall 1 data in
  let data := store_u32 o off_pid (Z.shiftr (bpf_get_current_pid_tgid k) 32) data in
  let '(data, _) := bpf_get_current_comm k off_comm sizeof_comm data in
  let '(data, _) :=
    bpf_probe_read_user_str k off_filename sizeof_filename
      (openat_filename args) data in
  let data := store_int o off_fd (-1) data in
  let data := store_u64 o off_count 0 data in
  data.

Definition sys_enter_openat (k : kernel) (args : openat_args) : kernel * Z :=
  let data := sys_enter_openat_data k args in
  let '(ev, _) := perf_submit (events k) data sizeof_data_t in
  (set_events k ev, 0%Z).

(** The contents of [data] when [sys_enter_write] reaches [perf_submit]. *)
Definition sys_enter_write_data (k : kernel) (args : write_args) : list byte :=
  let o := host_order k in
  let data := data_init k in
  let data := store_int o off_syscall 2 data in
  let data := store_u32 o off_pid (Z.shiftr (bpf_get_current_pid_tgid k) 32) data in
  let '(data, _) := bpf_get_current_comm k off_comm sizeof_comm data in
  let data := store (off_filename + 0) [x00] data in
  let data := store_int o off_fd (write_fd args) data in
  let data := store_u64 o off_count (write_count args) data in
  data.

Definition sys_enter_write (k : kernel) (args : write_args) : kernel * Z :=
  let data := sys_enter_write_data k args in
  let '(ev, _) := perf_submit (events k) data sizeof_data_t in
  (set_events k ev, 0%Z).

(** The contents of [data] when [sys_enter_unlinkat] reaches [perf_submit]. *)
Definition sys_enter_unlinkat_data (k : kernel) (args : unlinkat_args) : list byte :=
  let o := host_order k in
  let data := data_init k in
  let data := store_int o off_syscall 3 data in
  let data := store_u32 o off_pid (Z.shiftr (bpf_get_current_pid_tgid k) 32) data in
  let '(data, _) := bpf_get_current_comm k off_comm sizeof_comm data in
  let '(data, _) :=
    bpf_probe_read_user_str k off_filename sizeof_filename
      (unlinkat_pathname args) data in
  let data := store_int o off_fd (-1) data in
  let data := store_u64 o off_count 0 data in
  data.

Definition sys_enter_unlinkat (k : kernel) (args : unlinkat_args) : kernel * Z :=
  let data := sys_enter_unlinkat_data k args in
  let '(ev, _) := perf_submit (events k) data sizeof_data_t in
  (set_events k ev, 0%Z).

(** One syscall entry, with the arguments of its tracepoint. *)
Inductive syscall_entry : Type :=
| EnterOpenat (args : openat_args)
| EnterWrite (args : write_args)
| EnterUnlinkat (args : unlinkat_args).

Definition probe_data (k : kernel) (e : syscall_entry) : list byte :=
  match e with
  | EnterOpenat a => sys_enter_openat_data k a
  | EnterWrite a => sys_enter_write_data k a
  | EnterUnlinkat a => sys_enter_unlinkat_data k a
  end.

Definition probe (k : kernel) (e : syscall_entry) : kernel * Z :=
  match e with
  | EnterOpenat a => sys_enter_openat k a
  | EnterWrite a => sys_enter_write k a
  | EnterUnlinkat a => sys_enter_unlinkat k a
  end.

(* ================================================================= *)
(** ** Vocabulary of the properties *)

(** The NUL-terminated string [s] is readable at user address [ptr]. *)
Fixpoint user_string (mem : Z -> option byte) (ptr : Z) (s : list byte) : Prop :=
  match s with
  | [] => mem ptr = Some x00
  | c :: s' => mem ptr = Some c /\ c <> x00 /\ user_string mem (ptr + 1)%Z s'
  end.

Fixpoint user_stringb (mem : Z -> option byte) (ptr : Z) (s : list byte) : bool :=
  match s with
  | [] => match mem ptr with Some c => Byte.eqb c x00 | None => false end
  | c :: s' =>
      match mem ptr with
      | Some c' => Byte.eqb c' c && negb (Byte.eqb c x00)
                   && user_stringb mem (ptr + 1)%Z s'
      | None => false
      end
  end.

(** The user-memory read of the string at [ptr] into [size] bytes faults. *)
Definition read_fails (mem : Z -> option byte) (ptr : Z) (size : nat) : Prop :=
  strncpy_from_user mem ptr size = None.

(** User memory holding the bytes [bs] from address [base] on, and nothing
    else. *)
Definition mem_of (base : Z) (bs : list byte) : Z -> option byte :=
  fun a =>
    if (a <? base)%Z then None
    else nth_error bs (Z.to_nat (a - base)).

Definition u32_range (z : Z) : Prop := (0 <= z < 2 ^ 32)%Z.
Definition int_range (z : Z) : Prop := (- 2 ^ 31 <= z < 2 ^ 31)%Z.
Definition u64_range (z : Z) : Prop := (0 <= z < 2 ^ 64)%Z.

(** The task ids are kernel [pid_t] values, never negative. *)
Definition wf_task (t : task_struct) : Prop :=
  u32_range (task_tgid t) /\ u32_range (task_pid t).

(** The schema of a record: one of the three kinds, and the members that
    mean nothing for the kind hold their sentinels. *)
Definition schema_ok (o : byte_order) (rec : list byte) : Prop :=
  (data_syscall o rec = 1 \/ data_syscall o rec = 2 \/ data_syscall o rec = 3)%Z
  /\ ((data_syscall o rec = 1 \/ data_syscall o rec = 3)%Z ->
      data_fd o rec = (-1)%Z /\ data_count o rec = 0%Z)
  /\ (data_syscall o rec = 2%Z -> data_path rec = []).

(** The record a handler has built when it stored, in this order, the bytes
    [sc] of [syscall], [pb] of [pid], [cb] of [comm], [fb] at the start of
    [filename], [db] of [fd] and [nb] of [count] into the cleared slot. *)
Definition filled (sc pb cb fb db nb : list byte) : list byte :=
  store off_count nb
    (store off_fd db
       (store off_filename fb
          (store off_comm cb
             (store off_pid pb
                (store off_syscall sc (repeat x00 sizeof_data_t)))))).

(** The user pointer a handler copies a path from, if it copies one. *)
Definition path_arg (e : syscall_entry) : option Z :=
  match e with
  | EnterOpenat a => Some (openat_filename a)
  | EnterWrite _ => None
  | EnterUnlinkat a => Some (unlinkat_pathname a)
  end.

(** The code of the syscall, as the comment on [data_t.syscall] lists them. *)
Definition kind_code (e : syscall_entry) : Z :=
  match e with
  | EnterOpenat _ => 1%Z
  | EnterWrite _ => 2%Z
  | EnterUnlinkat _ => 3%Z
  end.

Definition nonzero (c : byte) : Prop := c <> x00.

Definition set_user_mem (k : kernel) (mem : Z -> option byte) : kernel :=
  {| current := current k;
     user_mem := mem;
     kstack := kstack k;
     events := events k;
     host_order := host_order k |}.

(** The bytes each handler stores for [pid] and [comm]. *)
Definition pid_bytes (k : kernel) : list byte :=
  int_bytes (host_order k) 4 (Z.shiftr (bpf_get_current_pid_tgid k) 32).

Definition comm_bytes (k : kernel) : list byte :=
  strscpy_pad (task_comm (current k)) sizeof_comm.

(** The bytes a handler stores at the start of [filename], and for [fd]
    and [count]. *)
Definition path_bytes (k : kernel) (e : syscall_entry) : list byte :=
  match e with
  | EnterOpenat a =>
      probe_read_bytes (user_mem k) sizeof_filename (openat_filename a)
  | EnterWrite _ => [x00]
  | EnterUnlinkat a =>
      probe_read_bytes (user_mem k) sizeof_filename (unlinkat_pathname a)
  end.

Definition fd_value (e : syscall_entry) : Z :=
  match e with
  | EnterWrite a => write_fd a
  | _ => (-1)%Z
  end.

Definition count_value (e : syscall_entry) : Z :=
  match e with
  | EnterWrite a => write_count a
  | _ => 0%Z
  end.

(** The field order the record table of the specification lists. *)
Definition table_order : list member :=
  [m_syscall; m_pid; m_comm; m_filename; m_fd; m_count].

(* ================================================================= *)
(** ** Concrete machines and calls *)

(** A test kernel: thread 4250 of process 4242, user memory [mem], a ring
    with [cap] slots. *)
Definition test_task : task_struct :=
  {| task_tgid := 4242; task_pid := 4250;
     task_comm := ["c"; "a"; "t"; x00; "z"; "z"; x00; x00;
                   x00; x00; x00; x00; x00; x00; x00; x00]%byte |}.

Definition test_kernel (mem : Z -> option byte) (cap : nat) : kernel :=
  {| current := test_task;
     user_mem := mem;
     kstack := fun _ => xaa;
     events := {| ring := []; capacity := cap; lost := 0 |};
     host_order := LittleEndian |}.

(** Concrete calls used to exercise the statements below. *)
Definition long_path : list byte := repeat "a"%byte 300.
Definition etc_path : list byte := ["/"; "e"; "t"; "c"; "/"; "f"]%byte.

Definition long_kernel : kernel :=
  test_kernel (mem_of 4096 (long_path ++ [x00])) 4.
Definition etc_kernel : kernel :=
  test_kernel (mem_of 4096 (etc_path ++ [x00; "q"%byte])) 4.
Definition unmapped_kernel : kernel :=
  test_kernel (fun _ => None) 4.

Definition openat_at (p : Z) : openat_args :=
  {| openat_dfd := (-100)%Z; openat_filename := p;
     openat_flags := 0%Z; openat_mode := 0%Z |}.
Definition unlinkat_at (p : Z) : unlinkat_args :=
  {| unlinkat_dfd := (-100)%Z; unlinkat_pathname := p; unlinkat_flag := 0%Z |}.
Definition write_3 : write_args :=
  {| write_fd := 3%Z; write_buf := 8192%Z; write_count := 4096%Z |}.

(** The same machine as [etc_kernel] with other junk on the stack and a
    ring that already holds a record. *)
Definition etc_kernel' : kernel :=
  {| current := test_task;
     user_mem := mem_of 4096 (etc_path ++ [x00; "q"%byte]);
     kstack := fun i => if Nat.even i then x55 else xff;
     events := {| ring := [[x01]]; capacity := 8; lost := 2 |};
     host_order := LittleEndian |}.

(* ================================================================= *)
(** ** Sequences of syscall entries *)

(** One syscall entry on this CPU: the task that makes the call, its
    address space, and the tracepoint that fires. *)
Record call : Type := {
  call_task : task_struct;
  call_mem : Z -> option byte;
  call_entry : syscall_entry
}.

(** The kernel when [c] enters its syscall: [current] and the user memory
    are those of the caller; stack and ring are as they were left. *)
Definition switch_to (k : kernel) (c : call) : kernel :=
  {| current := call_task c;
     user_mem := call_mem c;
     kstack := kstack k;
     events := events k;
     host_order := host_order k |}.

(** The handler of the tracepoint runs to completion on the caller. *)
Definition enter (k : kernel) (c : call) : kernel :=
  fst (probe (switch_to k c) (call_entry c)).

(** The calls [cs] enter one after the other. *)
Definition run (k : kernel) (cs : list call) : kernel :=
  fold_left enter cs k.

(** The record the handler builds for [c]. *)
Definition call_record (k : kernel) (c : call) : list byte :=
  probe_data (switch_to k c) (call_entry c).

(** Free slots of the ring. *)
Definition room (ev : perf_buffer) : nat :=
  capacity ev - length (ring ev).

Definition sh_task : task_struct :=
  {| task_tgid := 77; task_pid := 77;
     task_comm := ["s"; "h"; x00; x00; x00; x00; x00; x00;
                   x00; x00; x00; x00; x00; x00; x00; x00]%byte |}.

Definition call_cat_open : call :=
  {| call_task := test_task;
     call_mem := mem_of 4096 (etc_path ++ [x00]);
     call_entry := EnterOpenat (openat_at 4096) |}.
Definition call_sh_write : call :=
  {| call_task := sh_task;
     call_mem := fun _ => None;
     call_entry := EnterWrite write_3 |}.
Definition call_sh_unlink : call :=
  {| call_task := sh_task;
     call_mem := mem_of 4096 (etc_path ++ [x00]);
     call_entry := EnterUnlinkat (unlinkat_at 4096) |}.

(** A ring with two slots, empty. *)
Definition small_kernel : kernel := test_kernel (fun _ => None) 2.

(** The string of [etc_kernel] at another address, with nothing behind its
    terminator; an empty string. *)
Definition moved_kernel : kernel :=
  test_kernel (mem_of 8000 (etc_path ++ [x00])) 4.
Definition empty_kernel : kernel :=
  test_kernel (mem_of 4096 [x00]) 4.

(* ================================================================= *)
(** * Properties *)

(** ** Integer encodings *)

Lemma Z_of_byte_of_Z (z : Z) : Z_of_byte (byte_of_Z z) = (z mod 256)%Z.
Proof.
  unfold Z_of_byte, byte_of_Z.
  assert (Hr : (0 <= z mod 256 < 256)%Z) by (apply Z.mod_pos_bound; lia).
  destruct (Byte.of_N (Z.to_N (z mod 256))) as [b|] eqn:E.
  - apply Byte.to_of_N in E. rewrite E. lia.
  - apply Byte.of_N_None_iff in E. lia.
Qed.

Lemma Z_of_byte_range (b : byte) : (0 <= Z_of_byte b < 256)%Z.
Proof.
  unfold Z_of_byte. pose proof (Byte.to_N_bounded b). lia.
Qed.

Lemma length_bytes_le (n : nat) : forall z, length (bytes_le n z) = n.
Proof.
  induction n as [|n IH]; intros z; simpl; [reflexivity | now rewrite IH].
Qed.

Lemma Z_le_bytes_le (n : nat) :
  forall z, Z_le (bytes_le n z) = (z mod 256 ^ Z.of_nat n)%Z.
Proof.
  induction n as [|n IH]; intros z.
  - simpl. now rewrite Z.mod_1_r.
  - cbn [bytes_le Z_le]. rewrite Z_of_byte_of_Z, IH.
    rewrite Nat2Z.inj_succ, Z.pow_succ_r by lia.
    rewrite Z.rem_mul_r by lia. reflexivity.
Qed.

Lemma length_int_bytes (o : byte_order) (n : nat) (z : Z) :
  length (int_bytes o n z) = n.
Proof.
  destruct o; simpl; [|rewrite length_rev]; apply length_bytes_le.
Qed.

Lemma bytes_int_int_bytes (o : byte_order) (n : nat) (z : Z) :
  bytes_int o (int_bytes o n z) = (z mod 256 ^ Z.of_nat n)%Z.
Proof.
  destruct o; simpl; [|rewrite rev_involutive]; apply Z_le_bytes_le.
Qed.

Lemma bytes_le_zero (n : nat) : bytes_le n 0 = repeat x00 n.
Proof.
  induction n as [|n IH]; [reflexivity|].
  cbn [bytes_le repeat]. rewrite Zdiv_0_l, IH. reflexivity.
Qed.

Lemma rev_repeat_byte (c : byte) (n : nat) : rev (repeat c n) = repeat c n.
Proof.
  apply nth_error_ext. intros i.
  destruct (Nat.ltb_spec i n) as [Hi|Hi].
  - rewrite nth_error_rev, repeat_length.
    replace (i <? n) with true by (symmetry; now apply Nat.ltb_lt).
    rewrite !nth_error_repeat by lia. reflexivity.
  - transitivity (@None byte); [|symmetry];
      apply nth_error_None; rewrite ?length_rev, repeat_length; lia.
Qed.

Lemma int_bytes_zero (o : byte_order) (n : nat) : int_bytes o n 0 = repeat x00 n.
Proof.
  destruct o; simpl; rewrite bytes_le_zero; [reflexivity | apply rev_repeat_byte].
Qed.

(** ** Loads and stores *)

Lemma length_load (off n : nat) (buf : list byte) :
  off + n <= length buf -> length (load off n buf) = n.
Proof.
  intros H. unfold load. rewrite length_firstn, length_skipn. lia.
Qed.

Lemma length_store (off : nat) (bs buf : list byte) :
  off + length bs <= length buf -> length (store off bs buf) = length buf.
Proof.
  intros H. unfold store.
  rewrite !length_app, length_firstn, length_skipn. lia.
Qed.

Lemma nth_error_load (off n : nat) (buf : list byte) (i : nat) :
  nth_error (load off n buf) i =
  if i <? n then nth_error buf (off + i) else None.
Proof.
  unfold load. rewrite nth_error_firstn, nth_error_skipn. reflexivity.
Qed.

Lemma nth_error_store (off : nat) (bs buf : list byte) (i : nat) :
  off + length bs <= length buf ->
  nth_error (store off bs buf) i =
  if i <? off then nth_error buf i
  else if i <? off + length bs then nth_error bs (i - off)
  else nth_error buf i.
Proof.
  intros H. unfold store.
  rewrite nth_error_app, length_firstn, Nat.min_l by lia.
  destruct (Nat.ltb_spec i off) as [Hi|Hi].
  - rewrite nth_error_firstn.
    now replace (i <? off) with true by (symmetry; now apply Nat.ltb_lt).
  - rewrite nth_error_app.
    destruct (Nat.ltb_spec (i - off) (length bs)) as [Hj|Hj];
      destruct (Nat.ltb_spec i (off + length bs)) as [Hk|Hk]; try lia.
    + reflexivity.
    + rewrite nth_error_skipn. f_equal. lia.
Qed.

Ltac ltb_cases :=
  repeat match goal with
    | |- context [?a <? ?b] => destruct (Nat.ltb_spec a b)
    end; try lia; try reflexivity.

Lemma load_store_same (off : nat) (bs buf : list byte) :
  off + length bs <= length buf ->
  load off (length bs) (store off bs buf) = bs.
Proof.
  intros H. apply nth_error_ext. intros i.
  rewrite nth_error_load.
  destruct (Nat.ltb_spec i (length bs)) as [Hi|Hi].
  - rewrite nth_error_store by assumption. ltb_cases. f_equal. lia.
  - symmetry. now apply nth_error_None.
Qed.

Lemma load_store_other (off' n off : nat) (bs buf : list byte) :
  off + length bs <= length buf ->
  off' + n <= off \/ off + length bs <= off' ->
  load off' n (store off bs buf) = load off' n buf.
Proof.
  intros H Hd. apply nth_error_ext. intros i.
  rewrite !nth_error_load.
  destruct (Nat.ltb_spec i n) as [Hi|Hi]; [|reflexivity].
  rewrite nth_error_store by assumption. ltb_cases.
Qed.

Lemma load_store_prefix (off n : nat) (bs buf : list byte) :
  length bs <= n -> off + n <= length buf ->
  load off n (store off bs buf) =
  bs ++ load (off + length bs) (n - length bs) buf.
Proof.
  intros Hn H. apply nth_error_ext. intros i.
  rewrite nth_error_load, nth_error_app, nth_error_load.
  rewrite nth_error_store by lia.
  ltb_cases; f_equal; lia.
Qed.

Lemma load_repeat (off n m : nat) (c : byte) :
  off + n <= m -> load off n (repeat c m) = repeat c n.
Proof.
  intros H. apply nth_error_ext. intros i.
  rewrite nth_error_load.
  destruct (Nat.ltb_spec i n) as [Hi|Hi].
  - rewrite !nth_error_repeat by lia. reflexivity.
  - symmetry. apply nth_error_None. rewrite repeat_length. lia.
Qed.

Lemma load_all (n : nat) (buf : list byte) :
  length buf = n -> load 0 n buf = buf.
Proof.
  intros H. unfold load. rewrite skipn_O. apply firstn_all2. lia.
Qed.

(** ** The shape of a filled record *)

Ltac unfold_layout :=
  unfold off_pid, off_comm, off_filename, off_syscall, off_fd, off_count,
    sizeof_data_t, sizeof_comm, sizeof_filename in *.

Ltac buf_len :=
  repeat (rewrite length_store by buf_len);
  rewrite ?repeat_length, ?length_int_bytes in *;
  unfold_layout; lia.

(** A record is its members and its padding, in address order. *)
Lemma record_members (r : list byte) :
  length r = sizeof_data_t ->
  r = load off_pid 4 r ++ load off_comm sizeof_comm r
        ++ load off_filename sizeof_filename r
        ++ load off_syscall 4 r ++ load off_fd 4 r
        ++ load (off_fd + 4) 4 r ++ load off_count 8 r.
Proof.
  intros Hr. apply nth_error_ext. intros i.
  repeat rewrite nth_error_app.
  repeat rewrite length_load by (unfold_layout; lia).
  repeat rewrite nth_error_load.
  unfold_layout.
  destruct (Nat.ltb_spec i 296) as [Hi|Hi].
  - ltb_cases; f_equal; lia.
  - ltb_cases; apply nth_error_None; lia.
Qed.

Section FilledRecord.
Variables sc pb cb fb db nb : list byte.
Hypothesis Hsc : length sc = 4.
Hypothesis Hpb : length pb = 4.
Hypothesis Hcb : length cb = sizeof_comm.
Hypothesis Hfb : length fb <= sizeof_filename.
Hypothesis Hdb : length db = 4.
Hypothesis Hnb : length nb = 8.

Lemma length_filled : length (filled sc pb cb fb db nb) = sizeof_data_t.
Proof. unfold filled. buf_len. Qed.

Lemma filled_syscall : load off_syscall 4 (filled sc pb cb fb db nb) = sc.
Proof.
  unfold filled.
  rewrite !load_store_other by buf_len.
  rewrite <- Hsc at 1. apply load_store_same. buf_len.
Qed.

Lemma filled_pid : load off_pid 4 (filled sc pb cb fb db nb) = pb.
Proof.
  unfold filled.
  rewrite !load_store_other by buf_len.
  rewrite <- Hpb at 1. apply load_store_same. buf_len.
Qed.

Lemma filled_comm : load off_comm sizeof_comm (filled sc pb cb fb db nb) = cb.
Proof.
  unfold filled.
  rewrite !load_store_other by buf_len.
  rewrite <- Hcb at 1. apply load_store_same. buf_len.
Qed.

Lemma filled_filename :
  load off_filename sizeof_filename (filled sc pb cb fb db nb) =
  fb ++ repeat x00 (sizeof_filename - length fb).
Proof.
  unfold filled.
  rewrite !load_store_other by buf_len.
  rewrite load_store_prefix by buf_len.
  rewrite !load_store_other by buf_len.
  rewrite load_repeat by buf_len. reflexivity.
Qed.

Lemma filled_fd : load off_fd 4 (filled sc pb cb fb db nb) = db.
Proof.
  unfold filled.
  rewrite !load_store_other by buf_len.
  rewrite <- Hdb at 1. apply load_store_same. buf_len.
Qed.

Lemma filled_count : load off_count 8 (filled sc pb cb fb db nb) = nb.
Proof.
  unfold filled.
  rewrite <- Hnb at 1. apply load_store_same. buf_len.
Qed.

(** The four bytes between [fd] and [count] belong to no member. *)
Lemma filled_padding :
  load (off_fd + 4) 4 (filled sc pb cb fb db nb) = repeat x00 4.
Proof.
  unfold filled.
  rewrite !load_store_other by buf_len.
  apply load_repeat. buf_len.
Qed.

(** Every byte of the record, in address order. *)
Lemma filled_bytes :
  filled sc pb cb fb db nb =
  pb ++ cb ++ (fb ++ repeat x00 (sizeof_filename - length fb))
     ++ sc ++ db ++ repeat x00 4 ++ nb.
Proof.
  etransitivity; [apply record_members, length_filled|].
  rewrite filled_pid, filled_comm, filled_filename, filled_syscall,
    filled_fd, filled_padding, filled_count.
  reflexivity.
Qed.
End FilledRecord.

(** ** C strings *)

Lemma eqb_x00_true (c : byte) : Byte.eqb c x00 = true <-> c = x00.
Proof.
  split; [apply Byte.byte_dec_bl | apply Byte.byte_dec_lb].
Qed.

Lemma eqb_x00_false (c : byte) : Byte.eqb c x00 = false <-> c <> x00.
Proof.
  split.
  - apply Byte.eqb_false.
  - intros H. destruct (Byte.eqb c x00) eqn:E; [|reflexivity].
    apply eqb_x00_true in E. contradiction.
Qed.

Lemma c_string_nonzero (bs : list byte) : Forall nonzero (c_string bs).
Proof.
  induction bs as [|b bs IH]; simpl; [constructor|].
  destruct (Byte.eqb b x00) eqn:E; constructor; [|assumption].
  now apply eqb_x00_false.
Qed.

Lemma c_string_app_nul (s rest : list byte) :
  Forall nonzero s -> c_string (s ++ x00 :: rest) = s.
Proof.
  induction 1 as [|c s Hc _ IH]; simpl; [reflexivity|].
  apply eqb_x00_false in Hc. rewrite Hc, IH. reflexivity.
Qed.

Lemma c_string_repeat_nul (n : nat) : c_string (repeat x00 n) = [].
Proof. destruct n; reflexivity. Qed.

Lemma length_c_string (bs : list byte) : length (c_string bs) <= length bs.
Proof.
  induction bs as [|b bs IH]; simpl; [lia|].
  destruct (Byte.eqb b x00); simpl; lia.
Qed.

Lemma Forall_nonzero_firstn (n : nat) (s : list byte) :
  Forall nonzero s -> Forall nonzero (firstn n s).
Proof.
  intros H. revert n. induction H as [|c s Hc _ IH]; intros [|n]; simpl;
    constructor; auto.
Qed.

(** ** [strscpy_pad] and [bpf_get_current_comm] *)

Lemma length_strscpy_pad (src : list byte) (size : nat) :
  length (strscpy_pad src size) = size.
Proof.
  unfold strscpy_pad. rewrite length_app, repeat_length, length_firstn. lia.
Qed.

Lemma c_string_strscpy_pad (src : list byte) (size : nat) :
  0 < size ->
  c_string (strscpy_pad src size) = firstn (size - 1) (c_string src).
Proof.
  intros Hs. unfold strscpy_pad.
  set (s := firstn (size - 1) (c_string src)).
  assert (Hl : length s <= size - 1) by (subst s; rewrite length_firstn; lia).
  destruct (size - length s) as [|m] eqn:E; [lia|].
  cbn [repeat]. apply c_string_app_nul.
  apply Forall_nonzero_firstn, c_string_nonzero.
Qed.

(** ** [strncpy_from_user] and [bpf_probe_read_user_str] *)

Lemma user_stringb_sound (mem : Z -> option byte) (s : list byte) :
  forall ptr, user_stringb mem ptr s = true -> user_string mem ptr s.
Proof.
  induction s as [|c s IH]; intros ptr; simpl.
  - destruct (mem ptr) as [c'|]; [|discriminate].
    intros H. apply eqb_x00_true in H. now subst.
  - destruct (mem ptr) as [c'|]; [|discriminate].
    intros H. apply andb_prop in H as [H H3]. apply andb_prop in H as [H1 H2].
    apply Byte.byte_dec_bl in H1. subst c'.
    apply negb_true_iff, eqb_x00_false in H2. auto.
Qed.

Lemma user_string_nonzero (mem : Z -> option byte) (s : list byte) :
  forall ptr, user_string mem ptr s -> Forall nonzero s.
Proof.
  induction s as [|c s IH]; intros ptr; simpl; [constructor|].
  intros (_ & Hc & Hs). constructor; eauto.
Qed.

Lemma strncpy_from_user_short (mem : Z -> option byte) (s : list byte) :
  forall ptr count,
    user_string mem ptr s -> length s < count ->
    strncpy_from_user mem ptr count = Some (s ++ [x00]).
Proof.
  induction s as [|c s IH]; intros ptr [|n]; simpl; try lia.
  - intros -> _. reflexivity.
  - intros (-> & Hc & Hs) Hn. apply eqb_x00_false in Hc. rewrite Hc.
    rewrite (IH _ n Hs) by lia. reflexivity.
Qed.

Lemma strncpy_from_user_long (mem : Z -> option byte) (s : list byte) :
  forall ptr count,
    user_string mem ptr s -> count <= length s ->
    strncpy_from_user mem ptr count = Some (firstn count s).
Proof.
  induction s as [|c s IH]; intros ptr [|n]; simpl; try lia; try reflexivity.
  intros (-> & Hc & Hs) Hn. apply eqb_x00_false in Hc. rewrite Hc.
  rewrite (IH _ n Hs) by lia. reflexivity.
Qed.

(** What a successful copy looks like: bytes without NUL, then either the
    NUL that ended it or the end of the room. *)
Lemma strncpy_from_user_shape (mem : Z -> option byte) (count : nat) :
  forall ptr bs,
    strncpy_from_user mem ptr count = Some bs ->
    exists s, Forall nonzero s /\
      ((bs = s ++ [x00] /\ length s < count) \/ (bs = s /\ length s = count)).
Proof.
  induction count as [|n IH]; intros ptr bs; simpl.
  - intros [= <-]. exists []. split; [constructor | right; split; reflexivity].
  - destruct (mem ptr) as [c|]; [|discriminate].
    destruct (Byte.eqb c x00) eqn:E.
    + intros [= <-]. apply eqb_x00_true in E. subst c.
      exists []. split; [constructor | left; split; [reflexivity | simpl; lia]].
    + destruct (strncpy_from_user mem (ptr + 1)%Z n) as [bs'|] eqn:E';
        [|discriminate].
      intros [= <-]. apply eqb_x00_false in E.
      destruct (IH _ _ E') as (s & Hs & [[-> Hl] | [-> Hl]]);
        exists (c :: s); (split; [constructor; assumption|]).
      * left. split; [reflexivity | simpl; lia].
      * right. split; [reflexivity | simpl; lia].
Qed.

Lemma strncpy_from_user_ext (mem mem' : Z -> option byte) (count : nat) :
  (forall a, mem a = mem' a) ->
  forall ptr, strncpy_from_user mem ptr count = strncpy_from_user mem' ptr count.
Proof.
  intros H. induction count as [|n IH]; intros ptr; simpl; [reflexivity|].
  rewrite <- H. destruct (mem ptr) as [c|]; [|reflexivity].
  now rewrite IH.
Qed.

(** The bytes left in the destination are a string without NUL, its
    terminator, and NULs only behind it; they fit the destination. *)
Lemma probe_read_bytes_shape (mem : Z -> option byte) (size : nat) (ptr : Z) :
  0 < size ->
  exists s z,
    probe_read_bytes mem size ptr = s ++ x00 :: repeat x00 z
    /\ Forall nonzero s
    /\ length s + 1 + z <= size.
Proof.
  intros Hs. unfold probe_read_bytes.
  destruct size as [|n] eqn:En; [lia|]. rewrite <- En in *. clear n En.
  destruct (strncpy_from_user mem ptr size) as [bs|] eqn:E.
  - destruct (strncpy_from_user_shape _ _ _ _ E) as (s & Hnz & [[-> Hl] | [-> Hl]]).
    + exists s, 0. rewrite length_app. simpl.
      destruct (Nat.ltb_spec (length s + 1) size) as [Hlt|Hge].
      * repeat split; [assumption | lia].
      * replace (size - 1) with (length s + 0) by lia.
        rewrite firstn_app_2. simpl. rewrite app_nil_r.
        repeat split; [assumption | lia].
    + rewrite Hl, Nat.ltb_irrefl.
      exists (firstn (size - 1) s), 0. simpl.
      repeat split; [now apply Forall_nonzero_firstn|].
      rewrite length_firstn. lia.
  - exists [], (size - 1). simpl.
    destruct size as [|n]; [lia|]. simpl. rewrite Nat.sub_0_r.
    repeat split; [constructor | lia].
Qed.

Lemma length_probe_read_bytes (mem : Z -> option byte) (size : nat) (ptr : Z) :
  length (probe_read_bytes mem size ptr) <= size.
Proof.
  destruct size as [|n].
  - reflexivity.
  - destruct (probe_read_bytes_shape mem (S n) ptr) as (s & z & -> & _ & H);
      [lia|].
    rewrite length_app. simpl. rewrite repeat_length. lia.
Qed.

Lemma probe_read_bytes_short (mem : Z -> option byte) (size : nat) (ptr : Z)
    (s : list byte) :
  user_string mem ptr s -> length s < size ->
  probe_read_bytes mem size ptr = s ++ [x00].
Proof.
  intros Hs Hl. unfold probe_read_bytes.
  destruct size as [|n] eqn:En; [lia|]. rewrite <- En in *. clear n En.
  rewrite (strncpy_from_user_short _ _ _ _ Hs Hl), length_app. simpl.
  destruct (Nat.ltb_spec (length s + 1) size) as [Hlt|Hge]; [reflexivity|].
  replace (size - 1) with (length s + 0) by lia.
  rewrite firstn_app_2. simpl. now rewrite app_nil_r.
Qed.

Lemma probe_read_bytes_long (mem : Z -> option byte) (size : nat) (ptr : Z)
    (s : list byte) :
  user_string mem ptr s -> 0 < size <= length s ->
  probe_read_bytes mem size ptr = firstn (size - 1) s ++ [x00].
Proof.
  intros Hs [Hp Hl]. unfold probe_read_bytes.
  destruct size as [|n] eqn:En; [lia|]. rewrite <- En in *. clear n En.
  rewrite (strncpy_from_user_long _ _ _ _ Hs Hl).
  rewrite length_firstn, Nat.min_l, Nat.ltb_irrefl by assumption.
  rewrite firstn_firstn, Nat.min_l by lia. reflexivity.
Qed.

Lemma probe_read_bytes_fault (mem : Z -> option byte) (size : nat) (ptr : Z) :
  read_fails mem ptr size ->
  probe_read_bytes mem size ptr = repeat x00 size.
Proof.
  unfold read_fails, probe_read_bytes.
  destruct size; [reflexivity | now intros ->].
Qed.

Lemma probe_read_bytes_ext (mem mem' : Z -> option byte) (size : nat) (ptr : Z) :
  (forall a, mem a = mem' a) ->
  probe_read_bytes mem size ptr = probe_read_bytes mem' size ptr.
Proof.
  intros H. unfold probe_read_bytes.
  destruct size; [reflexivity|].
  now rewrite (strncpy_from_user_ext mem mem' _ H).
Qed.

(** ** The handlers, store by store *)

Lemma length_uninit (k : kernel) (n : nat) : length (uninit k n) = n.
Proof. unfold uninit. now rewrite length_map, length_seq. Qed.

(** After [struct data_t data = {}] nothing of the old stack is left. *)
Lemma data_init_zero (k : kernel) : data_init k = repeat x00 sizeof_data_t.
Proof.
  unfold data_init, memset, store.
  rewrite repeat_length, firstn_O, skipn_all2 by (rewrite length_uninit; lia).
  apply app_nil_r.
Qed.

Lemma sys_enter_openat_data_eq (k : kernel) (a : openat_args) :
  sys_enter_openat_data k a =
  filled (int_bytes (host_order k) 4 1) (pid_bytes k) (comm_bytes k)
    (probe_read_bytes (user_mem k) sizeof_filename (openat_filename a))
    (int_bytes (host_order k) 4 (-1)) (int_bytes (host_order k) 8 0).
Proof.
  unfold sys_enter_openat_data, bpf_get_current_comm, bpf_probe_read_user_str.
  cbv beta iota zeta. rewrite data_init_zero. reflexivity.
Qed.

Lemma sys_enter_write_data_eq (k : kernel) (a : write_args) :
  sys_enter_write_data k a =
  filled (int_bytes (host_order k) 4 2) (pid_bytes k) (comm_bytes k)
    [x00]
    (int_bytes (host_order k) 4 (write_fd a))
    (int_bytes (host_order k) 8 (write_count a)).
Proof.
  unfold sys_enter_write_data, bpf_get_current_comm.
  cbv beta iota zeta. rewrite data_init_zero, Nat.add_0_r. reflexivity.
Qed.

Lemma sys_enter_unlinkat_data_eq (k : kernel) (a : unlinkat_args) :
  sys_enter_unlinkat_data k a =
  filled (int_bytes (host_order k) 4 3) (pid_bytes k) (comm_bytes k)
    (probe_read_bytes (user_mem k) sizeof_filename (unlinkat_pathname a))
    (int_bytes (host_order k) 4 (-1)) (int_bytes (host_order k) 8 0).
Proof.
  unfold sys_enter_unlinkat_data, bpf_get_current_comm, bpf_probe_read_user_str.
  cbv beta iota zeta. rewrite data_init_zero. reflexivity.
Qed.

Lemma probe_data_eq (k : kernel) (e : syscall_entry) :
  probe_data k e =
  filled (int_bytes (host_order k) 4 (kind_code e)) (pid_bytes k) (comm_bytes k)
    (path_bytes k e)
    (int_bytes (host_order k) 4 (fd_value e))
    (int_bytes (host_order k) 8 (count_value e)).
Proof.
  destruct e as [a|a|a];
    cbn [probe_data kind_code path_bytes fd_value count_value].
  - apply sys_enter_openat_data_eq.
  - apply sys_enter_write_data_eq.
  - apply sys_enter_unlinkat_data_eq.
Qed.

Lemma length_path_bytes (k : kernel) (e : syscall_entry) :
  length (path_bytes k e) <= sizeof_filename.
Proof.
  destruct e; cbn [path_bytes]; try apply length_probe_read_bytes.
  unfold sizeof_filename. cbn [length]. lia.
Qed.

Lemma length_pid_bytes (k : kernel) : length (pid_bytes k) = 4.
Proof. apply length_int_bytes. Qed.

Lemma length_comm_bytes (k : kernel) : length (comm_bytes k) = sizeof_comm.
Proof. apply length_strscpy_pad. Qed.

Ltac members :=
  first [ apply length_int_bytes | apply length_pid_bytes
        | apply length_comm_bytes | apply length_path_bytes ].

Lemma length_probe_data (k : kernel) (e : syscall_entry) :
  length (probe_data k e) = sizeof_data_t.
Proof. rewrite probe_data_eq. apply length_filled; members. Qed.

Lemma probe_data_syscall_bytes (k : kernel) (e : syscall_entry) :
  load off_syscall 4 (probe_data k e) = int_bytes (host_order k) 4 (kind_code e).
Proof. rewrite probe_data_eq. apply filled_syscall; members. Qed.

Lemma probe_data_pid_bytes (k : kernel) (e : syscall_entry) :
  load off_pid 4 (probe_data k e) = pid_bytes k.
Proof. rewrite probe_data_eq. apply filled_pid; members. Qed.

Lemma probe_data_comm (k : kernel) (e : syscall_entry) :
  data_comm (probe_data k e) = comm_bytes k.
Proof. unfold data_comm. rewrite probe_data_eq. apply filled_comm; members. Qed.

Lemma probe_data_filename (k : kernel) (e : syscall_entry) :
  data_filename (probe_data k e) =
  path_bytes k e ++ repeat x00 (sizeof_filename - length (path_bytes k e)).
Proof.
  unfold data_filename. rewrite probe_data_eq. apply filled_filename; members.
Qed.

Lemma probe_data_fd_bytes (k : kernel) (e : syscall_entry) :
  load off_fd 4 (probe_data k e) = int_bytes (host_order k) 4 (fd_value e).
Proof. rewrite probe_data_eq. apply filled_fd; members. Qed.

Lemma probe_data_count_bytes (k : kernel) (e : syscall_entry) :
  load off_count 8 (probe_data k e) = int_bytes (host_order k) 8 (count_value e).
Proof. rewrite probe_data_eq. apply filled_count; members. Qed.

Lemma probe_data_padding (k : kernel) (e : syscall_entry) :
  load (off_fd + 4) 4 (probe_data k e) = repeat x00 4.
Proof. rewrite probe_data_eq. apply filled_padding; members. Qed.

(** ** The members of a submitted record, decoded *)

Lemma signed_mod_small (z : Z) :
  int_range z -> signed 32 (z mod 256 ^ Z.of_nat 4) = z.
Proof.
  unfold int_range, signed. intros H.
  change (256 ^ Z.of_nat 4)%Z with 4294967296%Z.
  change (2 ^ (32 - 1))%Z with 2147483648%Z.
  change (2 ^ 32)%Z with 4294967296%Z.
  change (2 ^ 31)%Z with 2147483648%Z in H.
  destruct (Z.ltb_spec (z mod 4294967296) 2147483648) as [Hlt|Hge].
  - destruct (Z_lt_le_dec z 0) as [Hn|Hp].
    + rewrite <- (Z_mod_plus_full z 1 4294967296) in Hlt.
      rewrite Z.mod_small in Hlt by lia. lia.
    + rewrite Z.mod_small by lia. reflexivity.
  - destruct (Z_lt_le_dec z 0) as [Hn|Hp].
    + rewrite <- (Z_mod_plus_full z 1 4294967296).
      rewrite Z.mod_small by lia. lia.
    + rewrite Z.mod_small in Hge by lia. lia.
Qed.

Lemma probe_data_syscall (k : kernel) (e : syscall_entry) :
  data_syscall (host_order k) (probe_data k e) = kind_code e.
Proof.
  unfold data_syscall.
  rewrite probe_data_syscall_bytes, bytes_int_int_bytes.
  apply signed_mod_small.
  destruct e; unfold int_range; cbn [kind_code]; lia.
Qed.

Lemma probe_data_fd (k : kernel) (e : syscall_entry) :
  int_range (fd_value e) ->
  data_fd (host_order k) (probe_data k e) = fd_value e.
Proof.
  intros H. unfold data_fd.
  rewrite probe_data_fd_bytes, bytes_int_int_bytes.
  now apply signed_mod_small.
Qed.

Lemma probe_data_count (k : kernel) (e : syscall_entry) :
  u64_range (count_value e) ->
  data_count (host_order k) (probe_data k e) = count_value e.
Proof.
  intros H. unfold data_count.
  rewrite probe_data_count_bytes, bytes_int_int_bytes.
  apply Z.mod_small. exact H.
Qed.

Lemma testbit_small (a n i : Z) :
  (0 <= a < 2 ^ n)%Z -> (0 <= n <= i)%Z -> Z.testbit a i = false.
Proof.
  intros Ha Hi. rewrite <- (Z.mod_small a (2 ^ n)) by assumption.
  apply Z.mod_pow2_bits_high. lia.
Qed.

(** The upper half of the combined id is the thread-group id. *)
Lemma pid_tgid_upper (k : kernel) :
  wf_task (current k) ->
  (Z.shiftr (bpf_get_current_pid_tgid k) 32 mod 256 ^ Z.of_nat 4)%Z
  = task_tgid (current k).
Proof.
  intros [Ht Hp]. unfold bpf_get_current_pid_tgid, u32_range in *.
  change (256 ^ Z.of_nat 4)%Z with (2 ^ 32)%Z.
  apply Z.bits_inj'. intros i Hi.
  destruct (Z.ltb_spec i 32) as [Hlt|Hge].
  - rewrite Z.mod_pow2_bits_low by lia.
    rewrite Z.shiftr_spec by lia.
    rewrite Z.mod_pow2_bits_low by lia.
    rewrite Z.lor_spec, Z.shiftl_spec by lia.
    replace (i + 32 - 32)%Z with i by lia.
    rewrite (testbit_small (task_pid (current k)) 32) by lia.
    apply orb_false_r.
  - rewrite Z.mod_pow2_bits_high by lia.
    symmetry. apply (testbit_small _ 32); lia.
Qed.

Lemma probe_data_pid (k : kernel) (e : syscall_entry) :
  wf_task (current k) ->
  data_pid (host_order k) (probe_data k e) = task_tgid (current k).
Proof.
  intros H. unfold data_pid.
  rewrite probe_data_pid_bytes. unfold pid_bytes.
  rewrite bytes_int_int_bytes. now apply pid_tgid_upper.
Qed.

(** ** Integer encodings read back *)

Lemma byte_of_Z_of_byte (b : byte) : byte_of_Z (Z_of_byte b) = b.
Proof.
  unfold byte_of_Z. rewrite Z.mod_small by apply Z_of_byte_range.
  unfold Z_of_byte. rewrite N2Z.id, Byte.of_to_N. reflexivity.
Qed.

Lemma byte_of_Z_add_mul (z c : Z) : byte_of_Z (z + c * 256) = byte_of_Z z.
Proof. unfold byte_of_Z. now rewrite Z_mod_plus_full. Qed.

Lemma bytes_le_add_mul (n : nat) :
  forall z c, bytes_le n (z + c * 256 ^ Z.of_nat n) = bytes_le n z.
Proof.
  induction n as [|n IH]; intros z c; [reflexivity|].
  cbn [bytes_le]. rewrite Nat2Z.inj_succ, Z.pow_succ_r by lia.
  replace (z + c * (256 * 256 ^ Z.of_nat n))%Z
    with (z + (c * 256 ^ Z.of_nat n) * 256)%Z by ring.
  rewrite byte_of_Z_add_mul, Z.div_add by lia.
  now rewrite IH.
Qed.

Lemma bytes_le_Z_le (bs : list byte) : bytes_le (length bs) (Z_le bs) = bs.
Proof.
  induction bs as [|b bs IH]; [reflexivity|].
  cbn [length bytes_le Z_le].
  replace (Z_of_byte b + 256 * Z_le bs)%Z
    with (Z_of_byte b + Z_le bs * 256)%Z by ring.
  rewrite byte_of_Z_add_mul, byte_of_Z_of_byte, Z.div_add by lia.
  rewrite Z.div_small by apply Z_of_byte_range.
  now rewrite Z.add_0_l, IH.
Qed.

Lemma int_bytes_bytes_int (o : byte_order) (bs : list byte) :
  int_bytes o (length bs) (bytes_int o bs) = bs.
Proof.
  destruct o; cbn [int_bytes bytes_int].
  - apply bytes_le_Z_le.
  - rewrite <- (length_rev bs), bytes_le_Z_le. apply rev_involutive.
Qed.

Lemma int_bytes_signed (o : byte_order) (z : Z) :
  int_bytes o 4 (signed 32 z) = int_bytes o 4 z.
Proof.
  unfold signed. destruct (z <? 2 ^ (32 - 1))%Z; [reflexivity|].
  change (2 ^ 32)%Z with (256 ^ Z.of_nat 4)%Z.
  replace (z - 256 ^ Z.of_nat 4)%Z with (z + (-1) * 256 ^ Z.of_nat 4)%Z by ring.
  destruct o; cbn [int_bytes]; now rewrite bytes_le_add_mul.
Qed.

(** ** Submission *)

Lemma probe_submits (k : kernel) (e : syscall_entry) :
  probe k e =
  (set_events k (fst (perf_submit (events k) (probe_data k e) sizeof_data_t)),
   0%Z).
Proof.
  destruct e as [a|a|a]; cbn [probe probe_data];
    unfold sys_enter_openat, sys_enter_write, sys_enter_unlinkat;
    destruct (perf_submit _ _ _); reflexivity.
Qed.

Lemma perf_submit_room (ev : perf_buffer) (data : list byte) (size : nat) :
  length (ring ev) < capacity ev -> length data = size ->
  ring (fst (perf_submit ev data size)) = ring ev ++ [data].
Proof.
  intros Hr Hl. unfold perf_submit.
  replace (length (ring ev) <? capacity ev) with true
    by (symmetry; now apply Nat.ltb_lt).
  cbn [fst ring]. rewrite firstn_all2 by lia. reflexivity.
Qed.

Lemma perf_submit_full (ev : perf_buffer) (data : list byte) (size : nat) :
  capacity ev <= length (ring ev) ->
  ring (fst (perf_submit ev data size)) = ring ev
  /\ lost (fst (perf_submit ev data size)) = S (lost ev).
Proof.
  intros Hr. unfold perf_submit.
  replace (length (ring ev) <? capacity ev) with false
    by (symmetry; now apply Nat.ltb_ge).
  split; reflexivity.
Qed.

Lemma probe_ring_room (k : kernel) (e : syscall_entry) :
  length (ring (events k)) < capacity (events k) ->
  ring (events (fst (probe k e))) = ring (events k) ++ [probe_data k e].
Proof.
  intros Hr. rewrite probe_submits. cbn [fst set_events events].
  apply perf_submit_room; [assumption | apply length_probe_data].
Qed.

Lemma probe_ring_full (k : kernel) (e : syscall_entry) :
  capacity (events k) <= length (ring (events k)) ->
  ring (events (fst (probe k e))) = ring (events k)
  /\ lost (events (fst (probe k e))) = S (lost (events k)).
Proof.
  intros Hr. rewrite probe_submits. cbn [fst set_events events].
  now apply perf_submit_full.
Qed.

(** ** The [filename] member of a submitted record *)

Lemma repeat_add (c : byte) (n m : nat) :
  repeat c (n + m) = repeat c n ++ repeat c m.
Proof. apply repeat_app. Qed.

Lemma path_bytes_shape (k : kernel) (e : syscall_entry) :
  exists s z,
    path_bytes k e = s ++ x00 :: repeat x00 z
    /\ Forall nonzero s
    /\ length s + 1 + z <= sizeof_filename.
Proof.
  destruct e as [a|a|a]; cbn [path_bytes];
    try (apply probe_read_bytes_shape; unfold sizeof_filename; lia).
  exists [], 0. repeat split; [constructor|].
  unfold sizeof_filename. cbn [length]. lia.
Qed.

(** The member holds a string without NUL and, behind it, NULs only, at
    least one of them. *)
Lemma probe_data_filename_shape (k : kernel) (e : syscall_entry) :
  exists s,
    Forall nonzero s
    /\ length s < sizeof_filename
    /\ data_filename (probe_data k e) =
       s ++ repeat x00 (sizeof_filename - length s).
Proof.
  destruct (path_bytes_shape k e) as (s & z & Hb & Hs & Hl).
  exists s. split; [assumption|]. split; [lia|].
  rewrite probe_data_filename, Hb.
  rewrite length_app. cbn [length]. rewrite repeat_length.
  rewrite <- app_assoc.
  replace (sizeof_filename - length s)
    with (S z + (sizeof_filename - (length s + S z))) by lia.
  rewrite repeat_add. reflexivity.
Qed.

Lemma c_string_zero_padded (s : list byte) (n : nat) :
  Forall nonzero s -> c_string (s ++ repeat x00 n) = s.
Proof.
  intros Hs. destruct n as [|n].
  - cbn [repeat]. rewrite app_nil_r.
    induction Hs as [|c s Hc _ IH]; [reflexivity|].
    cbn [c_string]. apply eqb_x00_false in Hc. now rewrite Hc, IH.
  - cbn [repeat]. now apply c_string_app_nul.
Qed.

Lemma probe_data_filename_path (k : kernel) (e : syscall_entry) :
  data_filename (probe_data k e) =
  data_path (probe_data k e)
    ++ repeat x00 (sizeof_filename - length (data_path (probe_data k e)))
  /\ length (data_path (probe_data k e)) < sizeof_filename.
Proof.
  destruct (probe_data_filename_shape k e) as (s & Hs & Hl & Hf).
  unfold data_path. rewrite Hf, c_string_zero_padded by assumption.
  split; [reflexivity | assumption].
Qed.

Lemma probe_data_filename_last (k : kernel) (e : syscall_entry) :
  nth_error (data_filename (probe_data k e)) (sizeof_filename - 1) = Some x00.
Proof.
  destruct (probe_data_filename_shape k e) as (s & Hs & Hl & ->).
  rewrite nth_error_app.
  replace (sizeof_filename - 1 <? length s) with false
    by (symmetry; apply Nat.ltb_ge; lia).
  apply nth_error_repeat. lia.
Qed.

Lemma probe_data_path_string (k : kernel) (e : syscall_entry) (p : Z)
    (s : list byte) :
  path_arg e = Some p -> user_string (user_mem k) p s ->
  data_filename (probe_data k e) =
  firstn (sizeof_filename - 1) s
    ++ repeat x00 (sizeof_filename - length (firstn (sizeof_filename - 1) s)).
Proof.
  intros Hp Hs. rewrite probe_data_filename.
  assert (Hb : path_bytes k e = probe_read_bytes (user_mem k) sizeof_filename p)
    by (destruct e; cbn [path_arg path_bytes] in *; congruence).
  rewrite Hb. clear Hb.
  destruct (Nat.lt_ge_cases (length s) sizeof_filename) as [Hlt|Hge].
  - rewrite (probe_read_bytes_short _ _ _ _ Hs Hlt).
    rewrite firstn_all2 by lia.
    rewrite length_app. cbn [length]. rewrite <- app_assoc.
    replace (sizeof_filename - length s)
      with (1 + (sizeof_filename - (length s + 1))) by lia.
    rewrite repeat_add. reflexivity.
  - rewrite (probe_read_bytes_long _ _ _ _ Hs)
      by (unfold sizeof_filename in *; lia).
    rewrite length_app, length_firstn. cbn [length].
    replace (sizeof_filename - (Nat.min (sizeof_filename - 1) (length s) + 1))
      with 0 by lia.
    replace (sizeof_filename - Nat.min (sizeof_filename - 1) (length s))
      with 1 by (unfold sizeof_filename in *; lia).
    cbn [repeat]. now rewrite app_nil_r.
Qed.

Lemma probe_data_path (k : kernel) (e : syscall_entry) (p : Z) (s : list byte) :
  path_arg e = Some p -> user_string (user_mem k) p s ->
  data_path (probe_data k e) = firstn (sizeof_filename - 1) s.
Proof.
  intros Hp Hs. unfold data_path.
  rewrite (probe_data_path_string k e p s Hp Hs).
  apply c_string_zero_padded, Forall_nonzero_firstn.
  exact (user_string_nonzero _ _ _ Hs).
Qed.

Lemma probe_data_filename_fault (k : kernel) (e : syscall_entry) (p : Z) :
  path_arg e = Some p -> read_fails (user_mem k) p sizeof_filename ->
  data_filename (probe_data k e) = repeat x00 sizeof_filename.
Proof.
  intros Hp Hf. rewrite probe_data_filename.
  assert (Hb : path_bytes k e = probe_read_bytes (user_mem k) sizeof_filename p)
    by (destruct e; cbn [path_arg path_bytes] in *; congruence).
  rewrite Hb, (probe_read_bytes_fault _ _ _ Hf), repeat_length, Nat.sub_diag.
  cbn [repeat]. apply app_nil_r.
Qed.

(* ================================================================= *)
(** * The claims *)

Ltac conjs := repeat match goal with |- _ /\ _ => split end.

(** C1.  For an OPENAT or UNLINKAT invocation the copy of the path touches
    only the 256 bytes of [filename], whatever the user pointer: the record
    keeps its size and every byte before and behind the member is as it
    was.  The member's last byte is always NUL, so the stored path is
    terminated and at most 255 bytes long.  When a string is readable at
    the pointer, the stored path is its first 255 bytes (all of it when it
    is shorter), and for a string longer than 255 bytes the member holds
    exactly its first 255 bytes followed by NUL. *)
Theorem path_copy_bounded_and_terminated
    (k : kernel) (e : syscall_entry) (p : Z) :
  path_arg e = Some p ->
  (forall buf, length buf = sizeof_data_t ->
     let buf' :=
       fst (bpf_probe_read_user_str k off_filename sizeof_filename p buf) in
     length buf' = sizeof_data_t
     /\ load 0 off_filename buf' = load 0 off_filename buf
     /\ load (off_filename + sizeof_filename)
             (sizeof_data_t - (off_filename + sizeof_filename)) buf'
        = load (off_filename + sizeof_filename)
               (sizeof_data_t - (off_filename + sizeof_filename)) buf)
  /\ length (probe_data k e) = sizeof_data_t
  /\ nth_error (data_filename (probe_data k e)) (sizeof_filename - 1)
     = Some x00
  /\ length (data_path (probe_data k e)) <= sizeof_filename - 1
  /\ (forall s, user_string (user_mem k) p s ->
        data_path (probe_data k e) = firstn (sizeof_filename - 1) s
        /\ (sizeof_filename - 1 < length s ->
            data_filename (probe_data k e)
            = firstn (sizeof_filename - 1) s ++ [x00])).
Proof.
  intros Hp. split; [|split; [|split; [|split]]].
  - intros buf Hbuf. cbv zeta. unfold bpf_probe_read_user_str. cbn [fst].
    pose proof (length_probe_read_bytes (user_mem k) sizeof_filename p) as Hl.
    set (bs := probe_read_bytes (user_mem k) sizeof_filename p) in *.
    assert (Hin : off_filename + length bs <= length buf)
      by (rewrite Hbuf; unfold_layout; lia).
    split; [|split].
    + rewrite length_store; assumption.
    + apply load_store_other; [assumption | left; lia].
    + apply load_store_other; [assumption | right; lia].
  - apply length_probe_data.
  - apply probe_data_filename_last.
  - pose proof (proj2 (probe_data_filename_path k e)). lia.
  - intros s Hs. split.
    + exact (probe_data_path k e p s Hp Hs).
    + intros Hlong. rewrite (probe_data_path_string k e p s Hp Hs).
      rewrite length_firstn.
      replace (sizeof_filename - Nat.min (sizeof_filename - 1) (length s))
        with 1 by (unfold sizeof_filename in *; lia).
      reflexivity.
Qed.

(** C2.  When the read of the path of an OPENAT or UNLINKAT invocation
    faults, the handler still hands a record to [perf_submit] and returns:
    the record is appended to the ring when the ring has room (and counted
    as lost when it has none); it carries the kind, the thread-group id and
    the command name of the caller, and its [filename] member is all NUL,
    so the path is empty. *)
Theorem failed_read_still_submits
    (k : kernel) (e : syscall_entry) (p : Z) :
  path_arg e = Some p ->
  read_fails (user_mem k) p sizeof_filename ->
  wf_task (current k) ->
  probe k e =
    (set_events k
       (fst (perf_submit (events k) (probe_data k e) sizeof_data_t)), 0%Z)
  /\ (length (ring (events k)) < capacity (events k) ->
      ring (events (fst (probe k e))) = ring (events k) ++ [probe_data k e])
  /\ (capacity (events k) <= length (ring (events k)) ->
      lost (events (fst (probe k e))) = S (lost (events k)))
  /\ data_syscall (host_order k) (probe_data k e) = kind_code e
  /\ data_pid (host_order k) (probe_data k e) = task_tgid (current k)
  /\ data_comm (probe_data k e)
     = strscpy_pad (task_comm (current k)) sizeof_comm
  /\ c_string (data_comm (probe_data k e))
     = firstn (sizeof_comm - 1) (c_string (task_comm (current k)))
  /\ data_filename (probe_data k e) = repeat x00 sizeof_filename
  /\ data_path (probe_data k e) = [].
Proof.
  intros Hp Hf Hwf.
  assert (Hfn := probe_data_filename_fault k e p Hp Hf).
  conjs.
  - apply probe_submits.
  - apply probe_ring_room.
  - intros Hfull. now apply probe_ring_full.
  - apply probe_data_syscall.
  - now apply probe_data_pid.
  - apply probe_data_comm.
  - rewrite probe_data_comm. apply c_string_strscpy_pad.
    unfold sizeof_comm. lia.
  - exact Hfn.
  - unfold data_path. rewrite Hfn. apply c_string_repeat_nul.
Qed.

(** C3.  An OPENAT invocation whose path argument is a readable string of
    at most 255 bytes submits a record with kind 1, the string as its path,
    [fd] -1 and [count] 0. *)
Theorem openat_short_path_record
    (k : kernel) (a : openat_args) (s : list byte) :
  user_string (user_mem k) (openat_filename a) s ->
  length s <= 255 ->
  sys_enter_openat k a =
    (set_events k
       (fst (perf_submit (events k) (sys_enter_openat_data k a)
               sizeof_data_t)), 0%Z)
  /\ data_syscall (host_order k) (sys_enter_openat_data k a) = 1%Z
  /\ data_path (sys_enter_openat_data k a) = s
  /\ data_fd (host_order k) (sys_enter_openat_data k a) = (-1)%Z
  /\ data_count (host_order k) (sys_enter_openat_data k a) = 0%Z.
Proof.
  intros Hs Hl.
  change (sys_enter_openat k a) with (probe k (EnterOpenat a)).
  change (sys_enter_openat_data k a) with (probe_data k (EnterOpenat a)).
  conjs.
  - apply probe_submits.
  - apply probe_data_syscall.
  - rewrite (probe_data_path k (EnterOpenat a) (openat_filename a) s eq_refl Hs).
    apply firstn_all2. unfold sizeof_filename. lia.
  - apply (probe_data_fd k (EnterOpenat a)).
    unfold int_range. cbn [fd_value]. lia.
  - apply (probe_data_count k (EnterOpenat a)).
    unfold u64_range. cbn [count_value]. lia.
Qed.

(** C4.  A WRITE invocation submits a record with kind 2, an empty path,
    and the [fd] and [count] arguments of the call; the record is the same
    whatever the user memory holds. *)
Theorem write_record
    (k : kernel) (a : write_args) :
  int_range (write_fd a) ->
  u64_range (write_count a) ->
  sys_enter_write k a =
    (set_events k
       (fst (perf_submit (events k) (sys_enter_write_data k a)
               sizeof_data_t)), 0%Z)
  /\ data_syscall (host_order k) (sys_enter_write_data k a) = 2%Z
  /\ data_path (sys_enter_write_data k a) = []
  /\ data_fd (host_order k) (sys_enter_write_data k a) = write_fd a
  /\ data_count (host_order k) (sys_enter_write_data k a) = write_count a
  /\ (forall mem,
        sys_enter_write_data (set_user_mem k mem) a = sys_enter_write_data k a).
Proof.
  intros Hfd Hcount.
  change (sys_enter_write k a) with (probe k (EnterWrite a)).
  change (sys_enter_write_data k a) with (probe_data k (EnterWrite a)).
  conjs.
  - apply probe_submits.
  - apply probe_data_syscall.
  - unfold data_path. rewrite probe_data_filename. cbn [path_bytes].
    apply (c_string_app_nul [] _ (Forall_nil _)).
  - now apply (probe_data_fd k (EnterWrite a)).
  - now apply (probe_data_count k (EnterWrite a)).
  - intros mem. rewrite !sys_enter_write_data_eq. reflexivity.
Qed.

(** C5.  An UNLINKAT invocation whose pathname argument is a readable
    string submits a record with kind 3, the first 255 bytes of the string
    as its path (the whole string when it is no longer), [fd] -1 and
    [count] 0. *)
Theorem unlinkat_record
    (k : kernel) (a : unlinkat_args) (s : list byte) :
  user_string (user_mem k) (unlinkat_pathname a) s ->
  sys_enter_unlinkat k a =
    (set_events k
       (fst (perf_submit (events k) (sys_enter_unlinkat_data k a)
               sizeof_data_t)), 0%Z)
  /\ data_syscall (host_order k) (sys_enter_unlinkat_data k a) = 3%Z
  /\ data_path (sys_enter_unlinkat_data k a) = firstn 255 s
  /\ (length s <= 255 -> data_path (sys_enter_unlinkat_data k a) = s)
  /\ data_fd (host_order k) (sys_enter_unlinkat_data k a) = (-1)%Z
  /\ data_count (host_order k) (sys_enter_unlinkat_data k a) = 0%Z.
Proof.
  intros Hs.
  change (sys_enter_unlinkat k a) with (probe k (EnterUnlinkat a)).
  change (sys_enter_unlinkat_data k a) with (probe_data k (EnterUnlinkat a)).
  conjs.
  - apply probe_submits.
  - apply probe_data_syscall.
  - exact (probe_data_path k (EnterUnlinkat a) (unlinkat_pathname a) s eq_refl Hs).
  - intros Hl. rewrite (probe_data_path k (EnterUnlinkat a) (unlinkat_pathname a) s eq_refl Hs).
    apply firstn_all2. unfold sizeof_filename. lia.
  - apply (probe_data_fd k (EnterUnlinkat a)).
    unfold int_range. cbn [fd_value]. lia.
  - apply (probe_data_count k (EnterUnlinkat a)).
    unfold u64_range. cbn [count_value]. lia.
Qed.

(** C6.  Whatever the handler and its input, the record it submits has one
    of the kinds 1, 2, 3; for kinds 1 and 3 its [fd] is -1 and its [count]
    is 0, for kind 2 its path is empty.  A ring that holds only such
    records holds only such records after the handler ran. *)
Theorem submitted_records_keep_schema
    (k : kernel) (e : syscall_entry) :
  schema_ok (host_order k) (probe_data k e)
  /\ (Forall (schema_ok (host_order k)) (ring (events k)) ->
      Forall (schema_ok (host_order k)) (ring (events (fst (probe k e))))).
Proof.
  assert (Hs : schema_ok (host_order k) (probe_data k e)).
  { unfold schema_ok. rewrite probe_data_syscall.
    destruct e as [a|a|a]; cbn [kind_code]; conjs; try lia.
    - intros _. split.
      + apply (probe_data_fd k (EnterOpenat a)).
        unfold int_range. cbn [fd_value]. lia.
      + apply (probe_data_count k (EnterOpenat a)).
        unfold u64_range. cbn [count_value]. lia.
    - intros _. unfold data_path. rewrite probe_data_filename.
      cbn [path_bytes]. apply (c_string_app_nul [] _ (Forall_nil _)).
    - intros _. split.
      + apply (probe_data_fd k (EnterUnlinkat a)).
        unfold int_range. cbn [fd_value]. lia.
      + apply (probe_data_count k (EnterUnlinkat a)).
        unfold u64_range. cbn [count_value]. lia. }
  split; [exact Hs|].
  intros Hring.
  destruct (Nat.lt_ge_cases (length (ring (events k))) (capacity (events k)))
    as [Hroom|Hfull].
  - rewrite (probe_ring_room k e Hroom).
    apply Forall_app. split; [assumption | constructor; [exact Hs | constructor]].
  - rewrite (proj1 (probe_ring_full k e Hfull)). assumption.
Qed.

Lemma pid_tgid_shift (k : kernel) :
  wf_task (current k) ->
  Z.shiftr (bpf_get_current_pid_tgid k) 32 = task_tgid (current k).
Proof.
  intros Hwf. pose proof (pid_tgid_upper k Hwf) as H.
  destruct Hwf as [Ht Hp]. unfold u32_range in *.
  etransitivity; [|exact H]. symmetry. apply Z.mod_small.
  change (256 ^ Z.of_nat 4)%Z with (2 ^ 32)%Z.
  unfold bpf_get_current_pid_tgid.
  rewrite Z.shiftr_div_pow2 by lia.
  assert (Hm : (0 <= Z.lor (Z.shiftl (task_tgid (current k)) 32)
                        (task_pid (current k)) mod 2 ^ 64 < 2 ^ 64)%Z)
    by (apply Z.mod_pos_bound; lia).
  split.
  - apply Z.div_pos; lia.
  - apply Z.div_lt_upper_bound; [lia|].
    change (2 ^ 32 * 2 ^ 32)%Z with (2 ^ 64)%Z. lia.
Qed.

(** C7.  In the record of every handler the [pid] member is the
    thread-group id of the calling task, which is the upper 32 bits of the
    value of [bpf_get_current_pid_tgid]; the thread id, its lower 32 bits,
    is not what is stored. *)
Theorem pid_is_thread_group_id
    (k : kernel) (e : syscall_entry) :
  wf_task (current k) ->
  data_pid (host_order k) (probe_data k e) = task_tgid (current k)
  /\ Z.shiftr (bpf_get_current_pid_tgid k) 32 = task_tgid (current k)
  /\ Z.land (bpf_get_current_pid_tgid k) (2 ^ 32 - 1) = task_pid (current k)
  /\ (task_pid (current k) <> task_tgid (current k) ->
      data_pid (host_order k) (probe_data k e) <> task_pid (current k)).
Proof.
  intros Hwf.
  assert (Hpid := probe_data_pid k e Hwf).
  conjs.
  - exact Hpid.
  - now apply pid_tgid_shift.
  - destruct Hwf as [Ht Hp]. unfold u32_range in *.
    change (2 ^ 32 - 1)%Z with (Z.ones 32).
    rewrite Z.land_ones by lia.
    unfold bpf_get_current_pid_tgid.
    apply Z.bits_inj'. intros i Hi.
    destruct (Z.ltb_spec i 32) as [Hlt|Hge].
    + rewrite Z.mod_pow2_bits_low by lia.
      rewrite Z.mod_pow2_bits_low by lia.
      rewrite Z.lor_spec, Z.shiftl_spec_low by lia. reflexivity.
    + rewrite Z.mod_pow2_bits_high by lia.
      symmetry. apply (testbit_small _ 32); lia.
  - intros Hne. rewrite Hpid. congruence.
Qed.

(** C8, as the specification states it: [syscall] is the first member of
    the record, followed by [pid], [comm], [filename], [fd] and [count].
    The declaration has [pid] first and [syscall] fourth, at offset 276;
    the first four bytes of the record of a WRITE decode to the
    thread-group id of the caller, not to the kind 2. *)
Lemma syscall_is_not_first_member :
  map fst (layout 0 data_t) <> table_order
  /\ offsetof m_syscall <> 0
  /\ bytes_int LittleEndian
       (load 0 4 (sys_enter_write_data etc_kernel write_3)) = 4242%Z
  /\ data_syscall LittleEndian (sys_enter_write_data etc_kernel write_3) = 2%Z.
Proof.
  conjs.
  - discriminate.
  - discriminate.
  - vm_compute. reflexivity.
  - vm_compute. reflexivity.
Qed.

(** C8, amended.  The members of the record are, in this order and at
    these offsets, [pid] (4 bytes at 0), [comm] (16 bytes at 4),
    [filename] (256 bytes at 20), [syscall] (4 bytes at 276), [fd]
    (4 bytes at 280) and, after 4 bytes of padding, [count] (8 bytes at
    288), 296 bytes in all.  The record of each of the three handlers has
    that size and is the concatenation, in that order, of the encodings of
    its members. *)
Theorem record_layout (k : kernel) (e : syscall_entry) :
  layout 0 data_t =
    [(m_pid, 0); (m_comm, 4); (m_filename, 20);
     (m_syscall, 276); (m_fd, 280); (m_count, 288)]
  /\ map (fun mt => sizeof (snd mt)) data_t = [4; 16; 256; 4; 4; 8]
  /\ struct_sizeof data_t = 296
  /\ length (probe_data k e) = struct_sizeof data_t
  /\ probe_data k e =
       int_bytes (host_order k) 4 (data_pid (host_order k) (probe_data k e))
       ++ data_comm (probe_data k e)
       ++ data_filename (probe_data k e)
       ++ int_bytes (host_order k) 4
            (data_syscall (host_order k) (probe_data k e))
       ++ int_bytes (host_order k) 4 (data_fd (host_order k) (probe_data k e))
       ++ repeat x00 4
       ++ int_bytes (host_order k) 8
            (data_count (host_order k) (probe_data k e)).
Proof.
  assert (Hlen := length_probe_data k e).
  conjs.
  - reflexivity.
  - reflexivity.
  - reflexivity.
  - exact Hlen.
  - unfold data_pid, data_syscall, data_fd, data_count.
    rewrite !int_bytes_signed.
    assert (H4 : forall off, off + 4 <= sizeof_data_t ->
      int_bytes (host_order k) 4
        (bytes_int (host_order k) (load off 4 (probe_data k e)))
      = load off 4 (probe_data k e)).
    { intros off Hoff.
      rewrite <- (length_load off 4 (probe_data k e)) at 1 by lia.
      apply int_bytes_bytes_int. }
    rewrite !H4 by (unfold_layout; lia).
    rewrite <- (length_load off_count 8 (probe_data k e)) at 1
      by (unfold_layout; lia).
    rewrite int_bytes_bytes_int.
    rewrite <- (probe_data_padding k e).
    apply record_members. exact Hlen.
Qed.

(** C9.  Every handler, on every input, returns 0 after handing its record
    to [perf_submit]; it changes nothing of the calling task or of its
    memory, only the ring. *)
Theorem probe_returns_zero (k : kernel) (e : syscall_entry) :
  snd (probe k e) = 0%Z
  /\ probe k e =
       (set_events k
          (fst (perf_submit (events k) (probe_data k e) sizeof_data_t)), 0%Z)
  /\ current (fst (probe k e)) = current k
  /\ user_mem (fst (probe k e)) = user_mem k.
Proof.
  rewrite probe_submits. conjs; reflexivity.
Qed.

(** C10.  The handler clears its whole stack slot before it fills it.  Two
    invocations on machines that agree on the calling task, the user
    memory and the byte order, with the same arguments, submit the same
    bytes, whatever was on the stack and in the ring.  In the record the
    padding behind [fd] is NUL, and so is every byte of [filename] and of
    [comm] behind the string it holds. *)
Theorem records_deterministic_and_zero_filled
    (k1 k2 : kernel) (e : syscall_entry) :
  current k1 = current k2 ->
  (forall a, user_mem k1 a = user_mem k2 a) ->
  host_order k1 = host_order k2 ->
  probe_data k1 e = probe_data k2 e
  /\ data_init k1 = repeat x00 sizeof_data_t
  /\ load (off_fd + 4) 4 (probe_data k1 e) = repeat x00 4
  /\ data_filename (probe_data k1 e) =
       data_path (probe_data k1 e)
       ++ repeat x00 (sizeof_filename - length (data_path (probe_data k1 e)))
  /\ data_comm (probe_data k1 e) =
       c_string (data_comm (probe_data k1 e))
       ++ repeat x00
            (sizeof_comm - length (c_string (data_comm (probe_data k1 e)))).
Proof.
  intros Hcur Hmem Hord. conjs.
  - rewrite !probe_data_eq. unfold pid_bytes, comm_bytes.
    unfold bpf_get_current_pid_tgid. rewrite Hcur, Hord.
    assert (Hp : path_bytes k1 e = path_bytes k2 e)
      by (destruct e; cbn [path_bytes];
          [now apply probe_read_bytes_ext | reflexivity
          | now apply probe_read_bytes_ext]).
    rewrite Hp. reflexivity.
  - apply data_init_zero.
  - apply probe_data_padding.
  - exact (proj1 (probe_data_filename_path k1 e)).
  - rewrite probe_data_comm. unfold comm_bytes.
    rewrite c_string_strscpy_pad by (unfold sizeof_comm; lia).
    unfold strscpy_pad. reflexivity.
Qed.

(* ================================================================= *)
(** * The statements at concrete calls *)

Lemma long_path_readable :
  user_string (user_mem long_kernel) 4096 long_path.
Proof. apply user_stringb_sound. vm_compute. reflexivity. Defined.

Lemma etc_path_readable :
  user_string (user_mem etc_kernel) 4096 etc_path.
Proof. apply user_stringb_sound. vm_compute. reflexivity. Defined.

Lemma test_task_wf : wf_task test_task.
Proof.
  cbv [wf_task u32_range test_task task_tgid task_pid]. lia.
Defined.

(** A path of 300 bytes is cut to 255 bytes and a NUL. *)
Lemma path_copy_bounded_and_terminated_witness :
  path_arg (EnterOpenat (openat_at 4096)) = Some 4096%Z
  /\ data_filename (probe_data long_kernel (EnterOpenat (openat_at 4096)))
     = firstn 255 long_path ++ [x00].
Proof.
  split; [reflexivity|].
  destruct (path_copy_bounded_and_terminated
              long_kernel (EnterOpenat (openat_at 4096)) 4096 eq_refl)
    as (_ & _ & _ & _ & H).
  apply (H long_path).
  - exact long_path_readable.
  - unfold long_path, sizeof_filename. rewrite repeat_length. lia.
Defined.

(** Nothing is mapped: the record of the UNLINKAT is still the one record
    of the ring, with an empty path. *)
Lemma failed_read_still_submits_witness :
  read_fails (user_mem unmapped_kernel) 0 sizeof_filename
  /\ ring (events (fst (probe unmapped_kernel (EnterUnlinkat (unlinkat_at 0)))))
     = [probe_data unmapped_kernel (EnterUnlinkat (unlinkat_at 0))]
  /\ data_syscall LittleEndian
       (probe_data unmapped_kernel (EnterUnlinkat (unlinkat_at 0))) = 3%Z
  /\ data_path (probe_data unmapped_kernel (EnterUnlinkat (unlinkat_at 0))) = [].
Proof.
  assert (Hf : read_fails (user_mem unmapped_kernel) 0 sizeof_filename)
    by (vm_compute; reflexivity).
  destruct (failed_read_still_submits
              unmapped_kernel (EnterUnlinkat (unlinkat_at 0)) 0
              eq_refl Hf test_task_wf)
    as (_ & Hroom & _ & Hkind & _ & _ & _ & _ & Hpath).
  split; [exact Hf|]. split; [|split].
  - apply Hroom. cbv [unmapped_kernel test_kernel events ring capacity length].
    lia.
  - exact Hkind.
  - exact Hpath.
Defined.

Lemma openat_short_path_record_witness :
  length etc_path <= 255
  /\ data_path (sys_enter_openat_data etc_kernel (openat_at 4096)) = etc_path
  /\ data_fd LittleEndian (sys_enter_openat_data etc_kernel (openat_at 4096))
     = (-1)%Z.
Proof.
  assert (Hl : length etc_path <= 255) by (cbv [etc_path length]; lia).
  destruct (openat_short_path_record etc_kernel (openat_at 4096) etc_path
              etc_path_readable Hl)
    as (_ & _ & Hpath & Hfd & _).
  split; [exact Hl|]. split; [exact Hpath | exact Hfd].
Defined.

Lemma write_record_witness :
  int_range 3 /\ u64_range 4096
  /\ data_fd LittleEndian (sys_enter_write_data etc_kernel write_3) = 3%Z
  /\ data_count LittleEndian (sys_enter_write_data etc_kernel write_3) = 4096%Z.
Proof.
  assert (Hfd : int_range 3) by (unfold int_range; lia).
  assert (Hn : u64_range 4096) by (unfold u64_range; lia).
  destruct (write_record etc_kernel write_3 Hfd Hn)
    as (_ & _ & _ & H1 & H2 & _).
  split; [exact Hfd|]. split; [exact Hn|]. split; [exact H1 | exact H2].
Defined.

Lemma unlinkat_record_witness :
  data_syscall LittleEndian (sys_enter_unlinkat_data long_kernel (unlinkat_at 4096))
  = 3%Z
  /\ data_path (sys_enter_unlinkat_data long_kernel (unlinkat_at 4096))
     = firstn 255 long_path.
Proof.
  destruct (unlinkat_record long_kernel (unlinkat_at 4096) long_path
              long_path_readable)
    as (_ & Hkind & Hpath & _).
  split; [exact Hkind | exact Hpath].
Defined.

Lemma submitted_records_keep_schema_witness :
  Forall (schema_ok LittleEndian)
    (ring (events (fst (probe etc_kernel (EnterWrite write_3))))).
Proof.
  apply (proj2 (submitted_records_keep_schema etc_kernel (EnterWrite write_3))).
  constructor.
Defined.

(** The caller is thread 4250 of process 4242. *)
Lemma pid_is_thread_group_id_witness :
  data_pid LittleEndian (probe_data etc_kernel (EnterWrite write_3)) = 4242%Z
  /\ data_pid LittleEndian (probe_data etc_kernel (EnterWrite write_3))
     <> 4250%Z.
Proof.
  destruct (pid_is_thread_group_id etc_kernel (EnterWrite write_3) test_task_wf)
    as (H1 & _ & _ & H2).
  split; [exact H1|]. apply H2. discriminate.
Defined.

(** Other stack junk, another ring: the same 296 bytes. *)
Lemma records_deterministic_and_zero_filled_witness :
  kstack etc_kernel 0 <> kstack etc_kernel' 0
  /\ probe_data etc_kernel (EnterOpenat (openat_at 4096))
     = probe_data etc_kernel' (EnterOpenat (openat_at 4096)).
Proof.
  split; [discriminate|].
  apply (records_deterministic_and_zero_filled
           etc_kernel etc_kernel' (EnterOpenat (openat_at 4096))
           eq_refl (fun a => eq_refl) eq_refl).
Defined.

(* ================================================================= *)
(** * Beyond the claims: sequences of calls and edge cases *)

(** ** What a record depends on *)

Lemma probe_data_ext (k1 k2 : kernel) (e : syscall_entry) :
  current k1 = current k2 ->
  (forall a, user_mem k1 a = user_mem k2 a) ->
  host_order k1 = host_order k2 ->
  probe_data k1 e = probe_data k2 e.
Proof.
  intros Hcur Hmem Hord.
  rewrite !probe_data_eq. unfold pid_bytes, comm_bytes.
  unfold bpf_get_current_pid_tgid. rewrite Hcur, Hord.
  assert (Hp : path_bytes k1 e = path_bytes k2 e)
    by (destruct e; cbn [path_bytes];
        [now apply probe_read_bytes_ext | reflexivity
        | now apply probe_read_bytes_ext]).
  rewrite Hp. reflexivity.
Qed.

Lemma call_record_ext (k1 k2 : kernel) (c : call) :
  host_order k1 = host_order k2 -> call_record k1 c = call_record k2 c.
Proof.
  intros H. unfold call_record. apply probe_data_ext; auto.
Qed.

Lemma length_call_record (k : kernel) (c : call) :
  length (call_record k c) = sizeof_data_t.
Proof. apply length_probe_data. Qed.

Lemma events_enter (k : kernel) (c : call) :
  events (enter k c) =
  fst (perf_submit (events k) (call_record k c) sizeof_data_t).
Proof.
  unfold enter. rewrite probe_submits. reflexivity.
Qed.

Lemma host_order_enter (k : kernel) (c : call) :
  host_order (enter k c) = host_order k.
Proof.
  unfold enter. rewrite probe_submits. reflexivity.
Qed.

Lemma enter_room (k : kernel) (c : call) :
  0 < room (events k) ->
  ring (events (enter k c)) = ring (events k) ++ [call_record k c]
  /\ capacity (events (enter k c)) = capacity (events k)
  /\ lost (events (enter k c)) = lost (events k).
Proof.
  unfold room. intros Hr. rewrite events_enter. unfold perf_submit.
  replace (length (ring (events k)) <? capacity (events k)) with true
    by (symmetry; apply Nat.ltb_lt; lia).
  cbn [fst ring capacity lost].
  rewrite firstn_all2 by (rewrite length_call_record; lia).
  auto.
Qed.

Lemma enter_full (k : kernel) (c : call) :
  room (events k) = 0 ->
  ring (events (enter k c)) = ring (events k)
  /\ capacity (events (enter k c)) = capacity (events k)
  /\ lost (events (enter k c)) = S (lost (events k)).
Proof.
  unfold room. intros Hr. rewrite events_enter. unfold perf_submit.
  replace (length (ring (events k)) <? capacity (events k)) with false
    by (symmetry; apply Nat.ltb_ge; lia).
  cbn [fst ring capacity lost]. auto.
Qed.

(** The ring after a run: the records of the first calls, as many as there
    was room for, behind what the ring held; the others counted as lost. *)
Lemma run_events (cs : list call) :
  forall k,
    ring (events (run k cs)) =
      ring (events k) ++ map (call_record k) (firstn (room (events k)) cs)
    /\ capacity (events (run k cs)) = capacity (events k)
    /\ lost (events (run k cs)) =
         lost (events k) + (length cs - room (events k))
    /\ host_order (run k cs) = host_order k.
Proof.
  induction cs as [|c cs IH]; intros k.
  - cbn [run fold_left length]. rewrite firstn_nil. cbn [map].
    rewrite app_nil_r. conjs; first [reflexivity | lia].
  - change (run k (c :: cs)) with (run (enter k c) cs).
    destruct (IH (enter k c)) as (Hr & Hc & Hl & Ho).
    rewrite Hr, Hc, Hl, Ho, host_order_enter. clear Hr Hc Hl Ho.
    destruct (room (events k)) as [|n] eqn:En.
    + destruct (enter_full k c En) as (Er & Ec & El).
      assert (En' : room (events (enter k c)) = 0)
        by (unfold room in *; rewrite Er, Ec; exact En).
      rewrite En', Er, Ec, El. rewrite !firstn_O. cbn [map length].
      conjs; first [reflexivity | lia].
    + destruct (enter_room k c) as (Er & Ec & El); [lia|].
      assert (En' : room (events (enter k c)) = n)
        by (unfold room in *; rewrite Er, Ec, length_app; cbn [length]; lia).
      rewrite En', Er, Ec, El. cbn [firstn map length].
      rewrite <- app_assoc. cbn [app].
      rewrite (map_ext (call_record (enter k c)) (call_record k))
        by (intros c'; apply call_record_ext, host_order_enter).
      conjs; first [reflexivity | lia].
Qed.

Lemma probe_data_schema (k : kernel) (e : syscall_entry) :
  schema_ok (host_order k) (probe_data k e).
Proof.
  unfold schema_ok. rewrite probe_data_syscall.
  destruct e as [a|a|a]; cbn [kind_code]; conjs; try lia.
  - intros _. split.
    + apply (probe_data_fd k (EnterOpenat a)).
      unfold int_range. cbn [fd_value]. lia.
    + apply (probe_data_count k (EnterOpenat a)).
      unfold u64_range. cbn [count_value]. lia.
  - intros _. unfold data_path. rewrite probe_data_filename.
    cbn [path_bytes]. apply (c_string_app_nul [] _ (Forall_nil _)).
  - intros _. split.
    + apply (probe_data_fd k (EnterUnlinkat a)).
      unfold int_range. cbn [fd_value]. lia.
    + apply (probe_data_count k (EnterUnlinkat a)).
      unfold u64_range. cbn [count_value]. lia.
Qed.

Lemma skipn_length_app {A : Type} (l l' : list A) :
  skipn (length l) (l ++ l') = l'.
Proof.
  rewrite skipn_app, skipn_all, Nat.sub_diag. reflexivity.
Qed.

(** X1.  After a run the ring holds, behind its earlier records and in the
    order of the calls, the records of the first calls, as many as it had
    free slots; every later call is dropped and counted as lost. *)
Theorem run_delivers_in_order_dropping_newest (k : kernel) (cs : list call) :
  ring (events (run k cs)) =
    ring (events k) ++ map (call_record k) (firstn (room (events k)) cs)
  /\ lost (events (run k cs)) =
       lost (events k) + (length cs - room (events k)).
Proof.
  destruct (run_events cs k) as (Hr & _ & Hl & _). auto.
Qed.

(** X2.  Each call of a run is accounted for exactly once: the records in
    the ring and the lost count together grow by the number of calls.  The
    capacity never changes and a ring within its capacity stays within
    it. *)
Theorem run_accounts_for_every_call (k : kernel) (cs : list call) :
  length (ring (events (run k cs))) + lost (events (run k cs)) =
    length (ring (events k)) + lost (events k) + length cs
  /\ capacity (events (run k cs)) = capacity (events k)
  /\ (length (ring (events k)) <= capacity (events k) ->
      length (ring (events (run k cs))) <= capacity (events k)).
Proof.
  destruct (run_events cs k) as (Hr & Hc & Hl & _).
  rewrite Hr, Hc, Hl, length_app, length_map, length_firstn.
  unfold room. conjs; try intros ?; lia.
Qed.

(** X3.  When the ring has room for all calls of a run, the new records
    carry, call by call, the thread-group id and the command name of the
    task that made the call and the kind of its syscall: nothing of one
    call shows in the record of another. *)
Theorem run_records_carry_their_callers (k : kernel) (cs : list call) :
  length cs <= room (events k) ->
  Forall (fun c => wf_task (call_task c)) cs ->
  let new := skipn (length (ring (events k))) (ring (events (run k cs))) in
  map (data_pid (host_order k)) new
    = map (fun c => task_tgid (call_task c)) cs
  /\ map data_comm new
     = map (fun c => strscpy_pad (task_comm (call_task c)) sizeof_comm) cs
  /\ map (data_syscall (host_order k)) new
     = map (fun c => kind_code (call_entry c)) cs.
Proof.
  intros Hroom Hwf. cbv zeta.
  destruct (run_events cs k) as (Hr & _).
  rewrite Hr, skipn_length_app, firstn_all2 by assumption.
  rewrite !map_map. conjs.
  - apply map_ext_in. intros c Hc.
    apply (probe_data_pid (switch_to k c) (call_entry c)).
    exact (proj1 (Forall_forall _ _) Hwf c Hc).
  - apply map_ext. intros c.
    apply (probe_data_comm (switch_to k c) (call_entry c)).
  - apply map_ext. intros c.
    apply (probe_data_syscall (switch_to k c) (call_entry c)).
Qed.

(** X4.  A ring whose records all satisfy the schema still holds only such
    records after any run of calls. *)
Theorem run_keeps_schema (k : kernel) (cs : list call) :
  Forall (schema_ok (host_order k)) (ring (events k)) ->
  Forall (schema_ok (host_order k)) (ring (events (run k cs))).
Proof.
  intros H. destruct (run_events cs k) as (Hr & _). rewrite Hr.
  apply Forall_app. split; [assumption|].
  apply Forall_forall. intros r Hin.
  apply in_map_iff in Hin as (c & <- & _).
  apply (probe_data_schema (switch_to k c) (call_entry c)).
Qed.

(** X5.  The WRITE handler keeps the low 32 bits of the [fd] argument,
    read as a signed number, and the low 64 bits of the [count] argument,
    whatever the arguments are. *)
Theorem write_fd_count_wrap (k : kernel) (a : write_args) :
  data_fd (host_order k) (sys_enter_write_data k a)
    = signed 32 (write_fd a mod 2 ^ 32)
  /\ data_count (host_order k) (sys_enter_write_data k a)
     = (write_count a mod 2 ^ 64)%Z.
Proof.
  change (sys_enter_write_data k a) with (probe_data k (EnterWrite a)).
  unfold data_fd, data_count.
  rewrite probe_data_fd_bytes, probe_data_count_bytes, !bytes_int_int_bytes.
  split; reflexivity.
Qed.

Lemma probe_read_bytes_string (mem : Z -> option byte) (p : Z) (s : list byte) :
  user_string mem p s ->
  probe_read_bytes mem sizeof_filename p
  = firstn (sizeof_filename - 1) s ++ [x00].
Proof.
  intros Hs.
  destruct (Nat.lt_ge_cases (length s) sizeof_filename) as [Hlt|Hge].
  - rewrite (probe_read_bytes_short _ _ _ _ Hs Hlt).
    rewrite firstn_all2 by lia. reflexivity.
  - apply probe_read_bytes_long; [assumption|].
    unfold sizeof_filename in *. lia.
Qed.

Lemma path_bytes_arg (k : kernel) (e : syscall_entry) (p : Z) :
  path_arg e = Some p ->
  path_bytes k e = probe_read_bytes (user_mem k) sizeof_filename p
  /\ fd_value e = (-1)%Z /\ count_value e = 0%Z.
Proof.
  destruct e; cbn [path_arg path_bytes fd_value count_value];
    intros [= <-] || discriminate; auto.
Qed.

(** X6.  Two OPENAT (or two UNLINKAT) calls by the same task whose path
    strings agree on their first 255 bytes submit the same bytes: where
    the string lies, what user memory holds behind its terminator, and what
    the string holds behind its 255th byte leave no trace in the record. *)
Theorem same_prefix_same_record
    (k1 k2 : kernel) (e1 e2 : syscall_entry) (p1 p2 : Z) (s1 s2 : list byte) :
  current k1 = current k2 ->
  host_order k1 = host_order k2 ->
  kind_code e1 = kind_code e2 ->
  path_arg e1 = Some p1 ->
  path_arg e2 = Some p2 ->
  user_string (user_mem k1) p1 s1 ->
  user_string (user_mem k2) p2 s2 ->
  firstn 255 s1 = firstn 255 s2 ->
  probe_data k1 e1 = probe_data k2 e2.
Proof.
  intros Hcur Hord Hkind Hp1 Hp2 Hs1 Hs2 Hpre.
  rewrite !probe_data_eq. unfold pid_bytes, comm_bytes.
  unfold bpf_get_current_pid_tgid. rewrite Hcur, Hord, Hkind.
  destruct (path_bytes_arg k1 e1 p1 Hp1) as (-> & -> & ->).
  destruct (path_bytes_arg k2 e2 p2 Hp2) as (-> & -> & ->).
  rewrite (probe_read_bytes_string _ _ _ Hs1).
  rewrite (probe_read_bytes_string _ _ _ Hs2).
  change (sizeof_filename - 1) with 255. rewrite Hpre. reflexivity.
Qed.

Lemma filled_filename_only (sc pb cb fb fb' db nb : list byte) :
  length sc = 4 -> length pb = 4 -> length cb = sizeof_comm ->
  length fb <= sizeof_filename -> length fb' <= sizeof_filename ->
  length db = 4 -> length nb = 8 ->
  fb ++ repeat x00 (sizeof_filename - length fb)
    = fb' ++ repeat x00 (sizeof_filename - length fb') ->
  filled sc pb cb fb db nb = filled sc pb cb fb' db nb.
Proof.
  intros Hsc Hpb Hcb Hfb Hfb' Hdb Hnb Heq.
  rewrite !filled_bytes by assumption. rewrite Heq. reflexivity.
Qed.

(** X7.  The handlers drop the result of the path read, so a call whose
    path is the empty string and a call whose path cannot be read submit
    the same bytes: the record does not tell the two apart. *)
Theorem empty_path_like_failed_read
    (k1 k2 : kernel) (e1 e2 : syscall_entry) (p1 p2 : Z) :
  current k1 = current k2 ->
  host_order k1 = host_order k2 ->
  kind_code e1 = kind_code e2 ->
  path_arg e1 = Some p1 ->
  path_arg e2 = Some p2 ->
  user_string (user_mem k1) p1 [] ->
  read_fails (user_mem k2) p2 sizeof_filename ->
  probe_data k1 e1 = probe_data k2 e2.
Proof.
  intros Hcur Hord Hkind Hp1 Hp2 Hs1 Hf2.
  rewrite !probe_data_eq. unfold pid_bytes, comm_bytes.
  unfold bpf_get_current_pid_tgid. rewrite Hcur, Hord, Hkind.
  destruct (path_bytes_arg k1 e1 p1 Hp1) as (-> & -> & ->).
  destruct (path_bytes_arg k2 e2 p2 Hp2) as (-> & -> & ->).
  rewrite (probe_read_bytes_string _ _ _ Hs1).
  rewrite (probe_read_bytes_fault _ _ _ Hf2).
  rewrite firstn_nil. cbn [app].
  apply filled_filename_only;
    try apply length_int_bytes; try apply length_strscpy_pad.
  - unfold sizeof_filename. cbn [length]. lia.
  - rewrite repeat_length. lia.
  - vm_compute. reflexivity.
Qed.

Lemma store_middle (off : nat) (old new front back : list byte) :
  length front = off -> length old = length new ->
  store off new (front ++ old ++ back) = front ++ new ++ back.
Proof.
  intros Hf Ho. unfold store.
  rewrite firstn_app, firstn_all2, skipn_app, skipn_all2 by lia.
  replace (off - length front) with 0 by lia.
  rewrite firstn_O, app_nil_r. cbn [app].
  rewrite skipn_app, skipn_all2 by lia. cbn [app].
  replace (off + length new - length front - length old) with 0 by lia.
  reflexivity.
Qed.

Lemma app_front3 (a b c r : list byte) :
  (a ++ b ++ c) ++ r = a ++ b ++ c ++ r.
Proof. now rewrite <- !app_assoc. Qed.

(** X8.  OPENAT and UNLINKAT share one encoding: for the same user pointer
    the record of [sys_enter_unlinkat] is that of [sys_enter_openat] with
    the four bytes of [syscall] replaced by the encoding of 3, and all
    other bytes alike. *)
Theorem unlinkat_is_openat_but_kind
    (k : kernel) (a : openat_args) (u : unlinkat_args) :
  openat_filename a = unlinkat_pathname u ->
  sys_enter_unlinkat_data k u =
    store off_syscall (int_bytes (host_order k) 4 3)
      (sys_enter_openat_data k a)
  /\ data_pid (host_order k) (sys_enter_unlinkat_data k u)
     = data_pid (host_order k) (sys_enter_openat_data k a)
  /\ data_comm (sys_enter_unlinkat_data k u)
     = data_comm (sys_enter_openat_data k a)
  /\ data_filename (sys_enter_unlinkat_data k u)
     = data_filename (sys_enter_openat_data k a).
Proof.
  intros Hp.
  assert (Hb : path_bytes k (EnterUnlinkat u) = path_bytes k (EnterOpenat a))
    by (cbn [path_bytes]; now rewrite Hp).
  change (sys_enter_unlinkat_data k u) with (probe_data k (EnterUnlinkat u)).
  change (sys_enter_openat_data k a) with (probe_data k (EnterOpenat a)).
  conjs.
  - rewrite !probe_data_eq, Hb. cbn [kind_code fd_value count_value].
    pose proof (length_path_bytes k (EnterOpenat a)) as Hl.
    rewrite !filled_bytes by members.
    set (fn := path_bytes k (EnterOpenat a)
               ++ repeat x00 (sizeof_filename
                              - length (path_bytes k (EnterOpenat a)))).
    assert (Hfn : length fn = sizeof_filename)
      by (subst fn; rewrite length_app, repeat_length; lia).
    rewrite <- !(app_front3 (pid_bytes k) (comm_bytes k) fn).
    symmetry. apply store_middle.
    + rewrite !length_app, length_pid_bytes, length_comm_bytes, Hfn.
      unfold_layout. lia.
    + rewrite !length_int_bytes. reflexivity.
  - unfold data_pid. now rewrite !probe_data_pid_bytes.
  - now rewrite !probe_data_comm.
  - now rewrite !probe_data_filename, Hb.
Qed.


(** ** The statements beyond the claims at concrete calls *)

Lemma sh_task_wf : wf_task sh_task.
Proof.
  cbv [wf_task u32_range sh_task task_tgid task_pid]. lia.
Defined.

(** Three calls on a ring with two slots. *)
Lemma run_accounts_for_every_call_witness :
  length (ring (events (run small_kernel
                          [call_cat_open; call_sh_write; call_sh_unlink])))
  <= capacity (events small_kernel).
Proof.
  apply (run_accounts_for_every_call small_kernel
           [call_cat_open; call_sh_write; call_sh_unlink]).
  vm_compute. lia.
Defined.

Lemma run_records_carry_their_callers_witness :
  map (data_pid LittleEndian)
    (skipn 0 (ring (events (run small_kernel [call_cat_open; call_sh_write]))))
  = [4242; 77]%Z.
Proof.
  assert (Hroom : length [call_cat_open; call_sh_write]
                  <= room (events small_kernel)) by (vm_compute; lia).
  assert (Hwf : Forall (fun c => wf_task (call_task c))
                  [call_cat_open; call_sh_write])
    by (constructor; [exact test_task_wf
                     | constructor; [exact sh_task_wf | constructor]]).
  exact (proj1 (run_records_carry_their_callers small_kernel
                  [call_cat_open; call_sh_write] Hroom Hwf)).
Defined.

Lemma run_keeps_schema_witness :
  Forall (schema_ok LittleEndian)
    (ring (events (run small_kernel
                     [call_cat_open; call_sh_write; call_sh_unlink]))).
Proof.
  apply (run_keeps_schema small_kernel
           [call_cat_open; call_sh_write; call_sh_unlink]).
  constructor.
Defined.

Lemma moved_path_readable :
  user_string (user_mem moved_kernel) 8000 etc_path.
Proof. apply user_stringb_sound. vm_compute. reflexivity. Defined.

Lemma same_prefix_same_record_witness :
  probe_data etc_kernel (EnterOpenat (openat_at 4096))
  = probe_data moved_kernel (EnterOpenat (openat_at 8000)).
Proof.
  apply (same_prefix_same_record etc_kernel moved_kernel
           (EnterOpenat (openat_at 4096)) (EnterOpenat (openat_at 8000))
           4096 8000 etc_path etc_path);
    try reflexivity.
  - exact etc_path_readable.
  - exact moved_path_readable.
Defined.

Lemma empty_path_like_failed_read_witness :
  probe_data empty_kernel (EnterUnlinkat (unlinkat_at 4096))
  = probe_data unmapped_kernel (EnterUnlinkat (unlinkat_at 0)).
Proof.
  apply (empty_path_like_failed_read empty_kernel unmapped_kernel
           (EnterUnlinkat (unlinkat_at 4096)) (EnterUnlinkat (unlinkat_at 0))
           4096 0);
    reflexivity.
Defined.

Lemma unlinkat_is_openat_but_kind_witness :
  sys_enter_unlinkat_data etc_kernel (unlinkat_at 4096)
  = store off_syscall (int_bytes LittleEndian 4 3)
      (sys_enter_openat_data etc_kernel (openat_at 4096)).
Proof.
  exact (proj1 (unlinkat_is_openat_but_kind etc_kernel
                  (openat_at 4096) (unlinkat_at 4096) eq_refl)).
Defined.

